(** * filedag-storage: DagNode striping and the DagPool service

    A shallow embedding of two layers of the repository:

    - package [node] (the erasure-striped [DagNode] over local slice
      stores): [sha256String], [fileID], [Put], [Get], [GetSize],
      [DeleteBlock], [Has] and the cask-creation handler;
    - package [poolservice] (the public [dagPoolService]): [Add], [Get],
      [GetSize], [Remove], [Has] and the user administration calls.

    Go values are modelled as follows: [uint32] as [Z] with the wrap-around
    written out, byte slices as [list Byte.byte], Go strings as [string],
    Go maps as [gmap], [(value, error)] results as pairs whose second
    component is [option error] ([None] is Go's [nil]).  Mutation through
    pointers becomes explicit state passing.

    Parts I to VI hold the definitions, Parts VII to XII the theorems.
    Code the two packages call but the sources do not contain (the erasure
    codec, the casks, the reference counter, the cache set, the identity
    system) is either a parameter or a definition marked as modelled from
    the specification. *)

From Stdlib Require Import ZArith List Lia Ascii String Bool.
From stdpp Require Import base option list gmap sets strings.

(** ** Part I. Hashing: [crypto/sha256], [hash/crc32] and [%x] *)

Module Hash.
Local Open Scope Z_scope.

Definition byte_val (b : Byte.byte) : Z := Z.of_N (Byte.to_N b).

Definition byte_of_Z (z : Z) : Byte.byte :=
  match Byte.of_N (Z.to_N (z mod 256)) with
  | Some b => b
  | None => Byte.x00
  end.

(** 32-bit words: every operation is followed by the reduction the
    hardware performs. *)
Definition w32 (x : Z) : Z := x mod 2 ^ 32.
Definition add32 (a b : Z) : Z := w32 (a + b).
Definition rotr (n x : Z) : Z :=
  Z.lor (Z.shiftr x n) (w32 (Z.shiftl x (32 - n))).
Definition not32 (x : Z) : Z := w32 (Z.lnot x).

Definition Ch (x y z : Z) : Z := Z.lxor (Z.land x y) (Z.land (not32 x) z).
Definition Maj (x y z : Z) : Z :=
  Z.lxor (Z.lxor (Z.land x y) (Z.land x z)) (Z.land y z).
Definition bsig0 (x : Z) : Z := Z.lxor (Z.lxor (rotr 2 x) (rotr 13 x)) (rotr 22 x).
Definition bsig1 (x : Z) : Z := Z.lxor (Z.lxor (rotr 6 x) (rotr 11 x)) (rotr 25 x).
Definition ssig0 (x : Z) : Z := Z.lxor (Z.lxor (rotr 7 x) (rotr 18 x)) (Z.shiftr x 3).
Definition ssig1 (x : Z) : Z := Z.lxor (Z.lxor (rotr 17 x) (rotr 19 x)) (Z.shiftr x 10).

(** The round constants and the initial chaining words are what FIPS 180-4
    defines them to be: the first 32 bits of the fractional parts of the
    cube roots of the first 64 primes, and of the square roots of the
    first 8.  (Go's package lists the same words as literals; the test
    vectors below check them.) *)
Definition is_prime (n : nat) : bool :=
  forallb (fun d => negb (n mod d =? 0)%nat) (seq 2 (n - 2)).

Definition primes64 : list Z :=
  map Z.of_nat (filter (fun n => is_prime n = true) (seq 2 310)).

(** Integer cube root of [x], one bit of the root at a time. *)
Fixpoint cube_root_bits (n : nat) (x r : Z) : Z :=
  match n with
  | O => r
  | S n' =>
      let c := r + 2 ^ Z.of_nat n' in
      if c * c * c <=? x then cube_root_bits n' x c else cube_root_bits n' x r
  end.

Definition frac_cube_root (p : Z) : Z := w32 (cube_root_bits 40 (p * 2 ^ 96) 0).
Definition frac_square_root (p : Z) : Z := w32 (Z.sqrt (p * 2 ^ 64)).

Definition K256 : list Z := map frac_cube_root primes64.

(** The eight chaining words of the digest. *)
Record digest_state := Dig {
  h0 : Z; h1 : Z; h2 : Z; h3 : Z; h4 : Z; h5 : Z; h6 : Z; h7 : Z
}.

Definition init256 : digest_state :=
  Dig (frac_square_root 2) (frac_square_root 3) (frac_square_root 5)
      (frac_square_root 7) (frac_square_root 11) (frac_square_root 13)
      (frac_square_root 17) (frac_square_root 19).

(** Big-endian rendering of [x] on [n] bytes. *)
Fixpoint be_bytes (n : nat) (x : Z) : list Z :=
  match n with
  | O => []
  | S n' => (Z.shiftr x (8 * Z.of_nat n')) mod 256 :: be_bytes n' x
  end.

Definition pad256 (msg : list Z) : list Z :=
  let l := Z.of_nat (length msg) in
  msg ++ [0x80] ++ repeat 0 (Z.to_nat ((55 - l) mod 64)) ++ be_bytes 8 (8 * l).

Fixpoint be_words (bs : list Z) : list Z :=
  match bs with
  | a :: b :: c :: d :: rest =>
      (a * 2 ^ 24 + b * 2 ^ 16 + c * 2 ^ 8 + d) :: be_words rest
  | _ => []
  end.

(** Message schedule, newest word first while it is being extended. *)
Fixpoint extend (n : nat) (wr : list Z) : list Z :=
  match n with
  | O => wr
  | S n' =>
      let w := add32 (add32 (ssig1 (nth 1 wr 0)) (nth 6 wr 0))
                     (add32 (ssig0 (nth 14 wr 0)) (nth 15 wr 0)) in
      extend n' (w :: wr)
  end.

Definition schedule (block : list Z) : list Z :=
  rev (extend 48 (rev (be_words block))).

Definition round (s : digest_state) (kw : Z * Z) : digest_state :=
  let '(Dig a b c d e f g h) := s in
  let t1 := add32 (add32 (add32 h (bsig1 e)) (add32 (Ch e f g) (fst kw))) (snd kw) in
  let t2 := add32 (bsig0 a) (Maj a b c) in
  Dig (add32 t1 t2) a b c (add32 d t1) e f g.

Definition compress (s : digest_state) (block : list Z) : digest_state :=
  let '(Dig a b c d e f g h) := fold_left round (combine K256 (schedule block)) s in
  Dig (add32 (h0 s) a) (add32 (h1 s) b) (add32 (h2 s) c) (add32 (h3 s) d)
      (add32 (h4 s) e) (add32 (h5 s) f) (add32 (h6 s) g) (add32 (h7 s) h).

Definition blocks64 (p : list Z) : list (list Z) :=
  map (fun i => take 64 (drop (64 * i)%nat p)) (seq 0 (length p / 64)%nat).

Definition digest_bytes (s : digest_state) : list Byte.byte :=
  map byte_of_Z
      (be_bytes 4 (h0 s) ++ be_bytes 4 (h1 s) ++ be_bytes 4 (h2 s) ++
       be_bytes 4 (h3 s) ++ be_bytes 4 (h4 s) ++ be_bytes 4 (h5 s) ++
       be_bytes 4 (h6 s) ++ be_bytes 4 (h7 s)).

(** [sha256.Sum256]. *)
Definition Sum256 (msg : list Byte.byte) : list Byte.byte :=
  digest_bytes (fold_left compress (blocks64 (pad256 (map byte_val msg))) init256).

(** [fmt.Sprintf("%x", b)] on a byte array: two lowercase digits a byte. *)
Definition hex_digits : list ascii :=
  list_ascii_of_string "0123456789abcdef".

Definition hex_digit (n : Z) : ascii :=
  nth (Z.to_nat n) hex_digits "0"%char.

Definition hex_of_byte (b : Byte.byte) : list ascii :=
  [hex_digit (byte_val b / 16); hex_digit (byte_val b mod 16)].

Definition sprintf_x (bs : list Byte.byte) : string :=
  string_of_list_ascii (flat_map hex_of_byte bs).

(** The value of a hexadecimal digit, [None] for any other character
    (upper-case letters included). *)
Definition hex_value (c : ascii) : option Z :=
  let n := Z.of_nat (nat_of_ascii c) in
  if (48 <=? n) && (n <=? 57) then Some (n - 48)
  else if (97 <=? n) && (n <=? 102) then Some (n - 87)
  else None.

Definition is_lower_hex (c : ascii) : bool :=
  match hex_value c with Some _ => true | None => false end.

Fixpoint unhex (cs : list ascii) : option (list Byte.byte) :=
  match cs with
  | [] => Some []
  | hi :: lo :: rest =>
      match hex_value hi, hex_value lo, unhex rest with
      | Some a, Some b, Some bs => Some (byte_of_Z (16 * a + b) :: bs)
      | _, _, _ => None
      end
  | _ => None
  end.

(** [hash/crc32]: the IEEE polynomial, reflected, in the byte-at-a-time
    table form of [simpleMakeTable] and [simpleUpdate]. *)
Definition IEEE : Z := 0xedb88320.

Definition crc_shift (crc : Z) : Z :=
  if Z.testbit crc 0 then Z.lxor (Z.shiftr crc 1) IEEE else Z.shiftr crc 1.

Definition crc_table (i : Z) : Z := Nat.iter 8 crc_shift i.

Definition crc_update_byte (crc : Z) (v : Byte.byte) : Z :=
  Z.lxor (crc_table (Z.lxor (crc mod 256) (byte_val v))) (Z.shiftr crc 8).

Definition ChecksumIEEE (p : list Byte.byte) : Z :=
  Z.lxor (fold_left crc_update_byte p 0xffffffff) 0xffffffff.

End Hash.

(** [sha256String] of package [node]. *)
Definition sha256String (s : string) : string :=
  Hash.sprintf_x (Hash.Sum256 (list_byte_of_string s)).


(** ** Part II. Errors *)

(** Go [error] values that the modelled code creates or passes on.  A run
    time panic (index out of range, division by zero, nil dereference) is
    kept apart from returned errors by its own constructor. *)
Inductive error : Type :=
| ErrNotFound                 (* kv.ErrNotFound *)
| ErrNoSpace                  (* the slice store's disk is full *)
| ErrOpenFile                 (* os.OpenFile failed while creating a cask *)
| ErrLevelDBNotFound          (* the size database has no such key *)
| ErrInvShardNum              (* NewErasure refused its parameters *)
| AccessDenied                (* upolicy.AccessDenied *)
| ErrNotFoundCid (c : string) (* format.ErrNotFound{Cid: c} *)
| ErrorNew (msg : string)     (* xerrors.New(msg) *)
| Panic.

#[global] Instance error_eq_dec : EqDecision error.
Proof. solve_decision. Defined.

Definition is_nil (e : option error) : bool :=
  match e with None => true | Some _ => false end.

(** ** Part III. The erasure codec *)

#[global] Instance byte_eq_dec : EqDecision Byte.byte := Byte.byte_eq_dec.

Abbreviation shard := (list Byte.byte).

(** The Reed-Solomon arithmetic over GF(2^8) belongs to an external
    library; the code below is parametric in it. [rs_parity k m ds] are
    the parity shards of the data shards [ds]; [rs_reconstruct k m ss]
    rebuilds absent data shards. *)
Class ReedSolomon := {
  rs_parity : nat -> nat -> list shard -> list shard;
  rs_reconstruct : nat -> nat -> list shard -> list shard
}.

Record Erasure := {
  e_dataBlocks : Z;
  e_parityBlocks : Z;
  e_blockSize : nat
}.

(** Modelled from the spec: [NewErasure] (file erasure.go is not part of
    the sources).  "Construct with (k, m, block_size)"; a DagNode has
    [k >= 1] and [m >= 0]. *)
Definition NewErasure (k m : Z) (blockSize : nat) : Erasure * option error :=
  let e := {| e_dataBlocks := k; e_parityBlocks := m; e_blockSize := blockSize |} in
  if ((k <=? 0) || (m <? 0))%Z then (e, Some ErrInvShardNum) else (e, None).

(** Modelled from the spec: the length of a shard of [Erasure.EncodeData],
    "Each shard has length ceil(block_size / k)". *)
Definition shard_len (k len : nat) : nat := (len + k - 1) / k.

(** Modelled from the spec: the padding of [Erasure.EncodeData],
    "zero-pads data to a multiple of k". *)
Definition zero_pad (k : nat) (data : list Byte.byte) : list Byte.byte :=
  data ++ repeat Byte.x00 (k * shard_len k (length data) - length data).

(** Modelled from the spec: the data shards of [Erasure.EncodeData],
    "splits into k equal data shards". *)
Definition split_shards (k : nat) (data : list Byte.byte) : list shard :=
  let per := shard_len k (length data) in
  map (fun i => take per (drop (i * per) (zero_pad k data))) (seq 0 k).

Section Codec.
Context `{RS : ReedSolomon}.

(** Modelled from the spec: [Erasure.EncodeData].  "zero-pads data to a
    multiple of k, splits into k equal data shards, computes m parity
    shards. Each shard has length ceil(block_size / k)." *)
Definition EncodeData (e : Erasure) (data : list Byte.byte)
  : list shard * option error :=
  let k := Z.to_nat (e_dataBlocks e) in
  let m := Z.to_nat (e_parityBlocks e) in
  let ds := split_shards k data in
  (ds ++ rs_parity k m ds, None).

(** Modelled from the spec: the encoder's [Verify], "checks parity
    consistency". *)
Definition Verify (e : Erasure) (shards : list shard) : bool * option error :=
  let k := Z.to_nat (e_dataBlocks e) in
  let m := Z.to_nat (e_parityBlocks e) in
  (bool_decide (drop k shards = rs_parity k m (take k shards)), None).

(** Modelled from the spec: a hole among the shards handed to
    [Erasure.DecodeDataBlocks], "holes marked absent"; a Go byte slice
    marks it by its length 0. *)
Definition absent (s : shard) : bool :=
  match s with [] => true | _ => false end.

(** Modelled from the spec: [Erasure.DecodeDataBlocks], "given at least k
    present shards (holes marked absent), reconstruct the data shards".
    When no data shard is absent there is nothing to reconstruct, and with
    fewer than k shards present nothing can be; the shards are then left
    as they are. *)
Definition DecodeDataBlocks (e : Erasure) (shards : list shard) : list shard :=
  let k := Z.to_nat (e_dataBlocks e) in
  let m := Z.to_nat (e_parityBlocks e) in
  if existsb absent (take k shards) then
    if k <=? length (filter (fun s => absent s = false) shards)
    then rs_reconstruct k m shards
    else shards
  else shards.

End Codec.

(** ** Part IV. Package [node]: slice stores and the DagNode *)

(** [blocks.Block]: the raw data and the string form of its CID. *)
Record Block := {
  RawData : list Byte.byte;
  Cid : string
}.

(** Modelled from the spec: a [Cask] (cask.go is not part of the sources),
    kept as its "in-memory index per cask: shard_key -> (value_pos,
    value_len)" together with the values it points to. *)
Abbreviation Cask := (gmap string shard).

(** Modelled from the spec: the bytes one vlog record takes,
    "[crc32:4][key_len:4][value_len:4][key:key_len][value:value_len]". *)
Definition vlog_record_size (key : string) (value : shard) : nat :=
  12 + String.length key + length value.

(** Modelled from the spec: [Cask.Put] (cask.go is not part of the
    sources).  The record is appended and the index updated; "Disk full on
    Put returns NoSpace".  [free] is what is left of the store's disk. *)
Definition cask_Put (free : nat) (c : Cask) (key : string) (value : shard)
  : nat * Cask * option error :=
  let need := vlog_record_size key value in
  if need <=? free
  then (free - need, <[key := value]> c, None)
  else (free, c, Some ErrNoSpace).

(** Modelled from the spec: [Cask.Read], "Get on missing key returns
    NotFound". *)
Definition cask_Read (c : Cask) (key : string) : shard * option error :=
  match c !! key with
  | Some v => (v, None)
  | None => ([], Some ErrNotFound)
  end.

(** Modelled from the spec: [Cask.Size], "Size(key) -> bytes": the
    [value_len] the index keeps for the key. *)
Definition cask_Size (c : Cask) (key : string) : nat * option error :=
  match c !! key with
  | Some v => (length v, None)
  | None => (0, Some ErrNotFound)
  end.

(** Modelled from the spec: [Cask.Delete], "removes the index entry";
    "re-deleting is a no-op". *)
Definition cask_Delete (c : Cask) (key : string) : Cask * option error :=
  (delete key c, None).

(** [SliceNode]: the configuration's [CaskNum], the cask map (a [CaskMap]
    is a map from cask id to cask), the [ids] the goroutine of
    [handleCreateCask] has served, and the two facts about the directory
    the code depends on: the disk space left, and whether [os.OpenFile]
    fails in it. *)
Record SliceNode := {
  CaskNum : Z;
  caskMap : gmap Z Cask;
  ids : list Z;
  disk_free : nat;
  open_fails : bool
}.

(** [DagNode]; [db] is the size database, whose [Put] stores and whose
    [Get] of a missing key is an error. *)
Record DagNode := {
  nodes : list SliceNode;
  db : gmap string nat;
  dataBlocks : Z;
  parityBlocks : Z
}.

Fixpoint hasId (l : list Z) (id : Z) : bool :=
  match l with
  | [] => false
  | item :: rest => if (item =? id)%Z then true else hasId rest id
  end.

(** One request served by the goroutine of [handleCreateCask]; the reply
    [None] stands for [ErrNone]. *)
Definition handleCreateCask (m : SliceNode) (id : Z) : SliceNode * option error :=
  if hasId (ids m) id then (m, None)
  else if open_fails m then (m, Some ErrOpenFile)
  else ({| CaskNum := CaskNum m;
           caskMap := <[id := (∅ : Cask)]> (caskMap m);
           ids := ids m ++ [id];
           disk_free := disk_free m;
           open_fails := open_fails m |}, None).

(** [DagNode.fileID]; [None] is the panic of [d.nodes[0]] on an empty
    slice or of [%] by zero. *)
Definition fileID (d : DagNode) (key : string) : option Z :=
  let crc := Hash.ChecksumIEEE (list_byte_of_string key) in
  match nodes d with
  | [] => None
  | n0 :: _ => if (CaskNum n0 =? 0)%Z then None else Some (crc mod CaskNum n0)%Z
  end.

Definition set_cask (m : SliceNode) (id : Z) (free : nat) (c : Cask) : SliceNode :=
  {| CaskNum := CaskNum m;
     caskMap := <[id := c]> (caskMap m);
     ids := ids m;
     disk_free := free;
     open_fails := open_fails m |}.

(** The body of the loop of [Put] for one member: make sure the cask
    exists (asking the creation handler when it does not), then write the
    shard.  An error leaves the loop: by [return err] after a failed
    creation, by [break] and the final [return err] after a failed write.
    [sh] is [shards[i]], [None] when the index is out of range. *)
Definition put_member (id : Z) (keyCode : string) (sh : option shard)
    (node : SliceNode) : SliceNode * option error :=
  let '(node1, created) :=
    match caskMap node !! id with
    | Some _ => (node, None)
    | None => handleCreateCask node id
    end in
  match created with
  | Some err => (node1, Some err)
  | None =>
      match caskMap node1 !! id, sh with
      | Some cask, Some value =>
          let '(free, cask', err) := cask_Put (disk_free node1) cask keyCode value in
          (set_cask node1 id free cask', err)
      | _, _ => (node1, Some Panic)
      end
  end.

Fixpoint put_loop (id : Z) (keyCode : string) (shards : list shard)
    (i : nat) (ns : list SliceNode) : list SliceNode * option error :=
  match ns with
  | [] => ([], None)
  | node :: rest =>
      match put_member id keyCode (shards !! i) node with
      | (node', Some err) => (node' :: rest, Some err)
      | (node', None) =>
          let '(rest', err) := put_loop id keyCode shards (S i) rest in
          (node' :: rest', err)
      end
  end.

Definition with_nodes (d : DagNode) (ns : list SliceNode) : DagNode :=
  {| nodes := ns; db := db d;
     dataBlocks := dataBlocks d; parityBlocks := parityBlocks d |}.

Definition with_db (d : DagNode) (m : gmap string nat) : DagNode :=
  {| nodes := nodes d; db := m;
     dataBlocks := dataBlocks d; parityBlocks := parityBlocks d |}.

Section NodeOps.
Context `{RS : ReedSolomon}.

(** [DagNode.Put]. *)
Definition Put (d : DagNode) (block : Block) : DagNode * option error :=
  let d1 := with_db d (<[Cid block := length (RawData block)]> (db d)) in
  let keyCode := sha256String (Cid block) in
  match NewErasure (dataBlocks d) (parityBlocks d) (length (RawData block)) with
  | (_, Some err) => (d1, Some err)
  | (enc, None) =>
      match EncodeData enc (RawData block) with
      | (_, Some err) => (d1, Some err)
      | (shards, None) =>
          match Verify enc shards with
          | (_, Some err) => (d1, Some err)
          | (_, None) =>
              match fileID d1 keyCode with
              | None => (d1, Some Panic)
              | Some id =>
                  let '(ns, err) := put_loop id keyCode shards 0 (nodes d1) in
                  (with_nodes d1 ns, err)
              end
          end
      end
  end.

(** The loop of [Get]: every member must have the cask and the key. *)
Fixpoint read_loop (id : Z) (keyCode : string) (ns : list SliceNode)
  : list shard * option error :=
  match ns with
  | [] => ([], None)
  | node :: rest =>
      match caskMap node !! id with
      | None => ([], Some ErrNotFound)
      | Some cask =>
          match cask_Read cask keyCode with
          | (_, Some err) => ([], Some err)
          | (bytes, None) =>
              let '(merged, err) := read_loop id keyCode rest in
              (bytes :: merged, err)
          end
      end
  end.

(** [blocks.NewBlockWithCid] outside debug mode, where it checks nothing. *)
Definition NewBlockWithCid (data : list Byte.byte) (c : string)
  : option Block * option error :=
  (Some {| RawData := data; Cid := c |}, None).

(** [DagNode.Get].  [data[:size]] panics when [size] exceeds what was
    joined. *)
Definition Get (d : DagNode) (cid : string) : option Block * option error :=
  let keyCode := sha256String cid in
  match db d !! cid with
  | None => (None, Some ErrLevelDBNotFound)
  | Some size =>
      match fileID d keyCode with
      | None => (None, Some Panic)
      | Some id =>
          match read_loop id keyCode (nodes d) with
          | (_, Some err) => (None, Some err)
          | (merged, None) =>
              let '(enc, err) := NewErasure (dataBlocks d) (parityBlocks d) size in
              let merged' := DecodeDataBlocks enc merged in
              let data := concat merged' in
              match err with
              | Some e => (None, Some e)
              | None =>
                  if length data <? size then (None, Some Panic)
                  else NewBlockWithCid (take size data) cid
              end
          end
      end
  end.

(** The loop of [GetSize]: the running [count] over the members. *)
Fixpoint size_loop (id : Z) (keyCode : string) (count : Z) (ns : list SliceNode)
  : Z * option error :=
  match ns with
  | [] => (count, None)
  | node :: rest =>
      match caskMap node !! id with
      | None => ((-1)%Z, Some ErrNotFound)
      | Some cask =>
          match cask_Size cask keyCode with
          | (_, Some err) => (0%Z, Some err)
          | (size, None) => size_loop id keyCode (count + Z.of_nat size)%Z rest
          end
      end
  end.

(** [DagNode.GetSize]. *)
Definition GetSize (d : DagNode) (cid : string) : Z * option error :=
  let keyCode := sha256String cid in
  match fileID d keyCode with
  | None => (0%Z, Some Panic)
  | Some id => size_loop id keyCode 0%Z (nodes d)
  end.

(** [DagNode.Has]. *)
Definition Has (d : DagNode) (cid : string) : bool * option error :=
  match GetSize d cid with
  | (_, Some err) =>
      if decide (err = ErrNotFound) then (false, None) else (false, Some err)
  | (_, None) => (true, None)
  end.

Fixpoint delete_loop (id : Z) (keyCode : string) (ns : list SliceNode)
  : list SliceNode * option error :=
  match ns with
  | [] => ([], None)
  | node :: rest =>
      match caskMap node !! id with
      | None => (node :: rest, None)
      | Some cask =>
          match cask_Delete cask keyCode with
          | (cask', Some err) =>
              (set_cask node id (disk_free node) cask' :: rest, Some err)
          | (cask', None) =>
              let '(rest', err) := delete_loop id keyCode rest in
              (set_cask node id (disk_free node) cask' :: rest', err)
          end
      end
  end.

(** [DagNode.DeleteBlock]. *)
Definition DeleteBlock (d : DagNode) (cid : string) : DagNode * option error :=
  let keyCode := sha256String cid in
  match fileID d keyCode with
  | None => (d, Some Panic)
  | Some id =>
      let '(ns, err) := delete_loop id keyCode (nodes d) in
      (with_nodes d ns, err)
  end.

End NodeOps.

(** ** Part V. Package [poolservice]: the public DagPool service *)

Module poolservice.

(** [upolicy.DagPoolPolicy], a Go string type (the code compares it with
    the empty string). *)
Abbreviation DagPoolPolicy := string.

(** Modelled from the spec: the policy [upolicy.ReadOnly] (package upolicy
    is not part of the sources), "policy ∈ {read-only, write-only,
    read-write}". *)
Definition ReadOnly : DagPoolPolicy := "read-only".

(** Modelled from the spec: the policy [upolicy.WriteOnly], as above. *)
Definition WriteOnly : DagPoolPolicy := "write-only".

(** Modelled from the spec: the policy [upolicy.ReadWrite], as above. *)
Definition ReadWrite : DagPoolPolicy := "read-write".

(** Modelled from the spec: whether a user's policy covers what an
    operation asks for ("a capability check: may(user, op) -> bool"). *)
Definition Allow (p op : DagPoolPolicy) : bool :=
  bool_decide (p = ReadWrite) || bool_decide (p = op).

(** [dpuser.DagPoolUser], with the four fields the service reads and
    writes: "(username, password, policy, capacity uint64)". *)
Record DagPoolUser := {
  Username : string;
  Password : string;
  Policy : DagPoolPolicy;
  Capacity : Z
}.

#[global] Instance DagPoolUser_eq_dec : EqDecision DagPoolUser.
Proof. solve_decision. Defined.

(** Modelled from the spec: [dpuser.IdentityUserSys] (package dpuser is
    not part of the sources): the root account given to
    [NewIdentityUserSys], "root-user: str, root-password: str", and the
    persisted "user/policy records". *)
Record IdentityUserSys := {
  rootUser : string;
  rootPassword : string;
  userStore : gmap string DagPoolUser
}.

Definition with_userStore (i : IdentityUserSys) (m : gmap string DagPoolUser)
  : IdentityUserSys :=
  {| rootUser := rootUser i; rootPassword := rootPassword i; userStore := m |}.

(** Modelled from the spec: [IdentityUserSys.IsAdmin]: the name is the
    root user's. *)
Definition IsAdmin (i : IdentityUserSys) (username : string) : bool :=
  bool_decide (username = rootUser i).

(** Modelled from the spec: [IdentityUserSys.CheckAdmin], "admin auth":
    the root user's name and password. *)
Definition CheckAdmin (i : IdentityUserSys) (user pass : string) : bool :=
  bool_decide (user = rootUser i) && bool_decide (pass = rootPassword i).

(** Modelled from the spec: [IdentityUserSys.QueryUser], the stored
    record of a user name, an error when there is none. *)
Definition iam_QueryUser (i : IdentityUserSys) (username : string)
  : option DagPoolUser * option error :=
  match userStore i !! username with
  | Some u => (Some u, None)
  | None => (None, Some ErrLevelDBNotFound)
  end.

(** Modelled from the spec: [IdentityUserSys.CheckUser]: the root pair,
    or a stored user with that password. *)
Definition CheckUser (i : IdentityUserSys) (user pass : string) : bool :=
  CheckAdmin i user pass
  || match userStore i !! user with
     | Some u => bool_decide (Password u = pass)
     | None => false
     end.

(** Modelled from the spec: [IdentityUserSys.CheckUserPolicy], the
    "capability check: may(user, op) -> bool": the root pair, or a stored
    user with that password whose policy allows the operation. *)
Definition CheckUserPolicy (i : IdentityUserSys) (user pass : string)
    (policy : DagPoolPolicy) : bool :=
  CheckAdmin i user pass
  || match userStore i !! user with
     | Some u => bool_decide (Password u = pass) && Allow (Policy u) policy
     | None => false
     end.

(** Modelled from the spec: [IdentityUserSys.AddUser], which stores the
    record under its user name. *)
Definition iam_AddUser (i : IdentityUserSys) (u : DagPoolUser)
  : IdentityUserSys * option error :=
  (with_userStore i (<[Username u := u]> (userStore i)), None).

(** Modelled from the spec: [IdentityUserSys.RemoveUser], which deletes
    the record of the user name. *)
Definition iam_RemoveUser (i : IdentityUserSys) (username : string)
  : IdentityUserSys * option error :=
  (with_userStore i (delete username (userStore i)), None).

(** Modelled from the spec: [IdentityUserSys.UpdateUser], which stores
    the record under its user name. *)
Definition iam_UpdateUser (i : IdentityUserSys) (u : DagPoolUser)
  : IdentityUserSys * option error :=
  (with_userStore i (<[Username u := u]> (userStore i)), None).

(** The block backend behind [putBlock], [readBlock] and [readBlockSize]:
    the DagNode the key's slot routes to, seen through the three calls the
    service makes of it.  The service is parametric in it. *)
Class BlockService (B : Type) := {
  bs_Put : B -> Block -> B * option error;
  bs_Get : B -> string -> option Block * option error;
  bs_GetSize : B -> string -> Z * option error
}.

(** What the service asked of the backend, in order. *)
Inductive Call : Type :=
| CallPut (cid : string)
| CallGet (cid : string)
| CallGetSize (cid : string).

Section Service.
Context {B : Type} `{BS : BlockService B}.

(** [dagPoolService]: the fields the modelled operations touch.
    [refCounter] keeps one entry per pinned key ("On count == 0 the entry
    is removed"), [gcInterrupted] is the request [InterruptGC] leaves for
    the collector, [calls] records the backend calls made so far. *)
Record dagPoolService := {
  iam : IdentityUserSys;
  refCounter : gmap string N;
  cacheSet : gset string;
  gcInterrupted : bool;
  backend : B;
  calls : list Call
}.

Definition with_iam (d : dagPoolService) (i : IdentityUserSys) : dagPoolService :=
  {| iam := i; refCounter := refCounter d; cacheSet := cacheSet d;
     gcInterrupted := gcInterrupted d; backend := backend d; calls := calls d |}.

Definition with_refs (d : dagPoolService) (r : gmap string N) (c : gset string)
  : dagPoolService :=
  {| iam := iam d; refCounter := r; cacheSet := c;
     gcInterrupted := gcInterrupted d; backend := backend d; calls := calls d |}.

Definition with_backend (d : dagPoolService) (b : B) (ev : Call) : dagPoolService :=
  {| iam := iam d; refCounter := refCounter d; cacheSet := cacheSet d;
     gcInterrupted := gcInterrupted d; backend := b; calls := calls d ++ [ev] |}.

(** Modelled from the spec: [InterruptGC], "mutators ... signal
    InterruptGC, which causes the collector to abort its current cycle". *)
Definition InterruptGC (d : dagPoolService) : dagPoolService :=
  {| iam := iam d; refCounter := refCounter d; cacheSet := cacheSet d;
     gcInterrupted := true; backend := backend d; calls := calls d |}.

(** Modelled from the spec: [putBlock],
    "routeToSlot(cid).DagNode.Put(block)". *)
Definition putBlock (d : dagPoolService) (block : Block)
  : dagPoolService * option error :=
  let '(b, err) := bs_Put (backend d) block in
  (with_backend d b (CallPut (Cid block)), err).

(** Modelled from the spec: [readBlock], "DagNode.Get via slot". *)
Definition readBlock (d : dagPoolService) (c : string)
  : dagPoolService * option Block * option error :=
  let '(blk, err) := bs_Get (backend d) c in
  (with_backend d (backend d) (CallGet c), blk, err).

(** Modelled from the spec: [readBlockSize], "As Get but returns only
    size". *)
Definition readBlockSize (d : dagPoolService) (c : string)
  : dagPoolService * Z * option error :=
  let '(size, err) := bs_GetSize (backend d) c in
  (with_backend d (backend d) (CallGetSize c), size, err).

(** Modelled from the spec: the count of a key, "RefCount entry: { key,
    count }", 0 for a key without entry. *)
Definition refcount (d : dagPoolService) (key : string) : N :=
  default 0%N (refCounter d !! key).

(** Modelled from the spec: [RefCounter.Has], "true iff refcount >= 1". *)
Definition refCounter_Has (d : dagPoolService) (key : string)
  : bool * option error :=
  ((1 <=? refcount d key)%N, None).

(** Modelled from the spec: [RefCounter.IncrOrCreate].  "increments the
    refcount for key; if the key's refcount was zero or absent, invokes
    create_fn() exactly once ...; if create_fn fails, the counter is rolled
    back and the error returned. If the key was previously in the cache
    set, it is removed from it". *)
Definition refCounter_IncrOrCreate (d : dagPoolService) (key : string)
    (create : dagPoolService -> dagPoolService * option error)
  : dagPoolService * option error :=
  if (refcount d key =? 0)%N then
    match create d with
    | (d', Some err) => (d', Some err)
    | (d', None) =>
        (with_refs d' (<[key := 1%N]> (refCounter d')) (cacheSet d' ∖ {[key]}), None)
    end
  else
    (with_refs d (<[key := (refcount d key + 1)%N]> (refCounter d))
               (cacheSet d ∖ {[key]}), None).

(** Modelled from the spec: [RefCounter.Decr].  "decrements; if the
    resulting count is 0, the entry is removed ... (it is not added to the
    cache set)".  A key without an entry is left as it is. *)
Definition refCounter_Decr (d : dagPoolService) (key : string)
  : dagPoolService * option error :=
  match refCounter d !! key with
  | None => (d, None)
  | Some n =>
      if (n <=? 1)%N
      then (with_refs d (delete key (refCounter d)) (cacheSet d), None)
      else (with_refs d (<[key := (n - 1)%N]> (refCounter d)) (cacheSet d), None)
  end.

(** Modelled from the spec: [CacheSet.Has], membership in a "trivially
    persistent set". *)
Definition cacheSet_Has (d : dagPoolService) (key : string) : bool * option error :=
  (bool_decide (key ∈ cacheSet d), None).

(** Modelled from the spec: [CacheSet.Add], on the same set. *)
Definition cacheSet_Add (d : dagPoolService) (key : string)
  : dagPoolService * option error :=
  (with_refs d (refCounter d) (cacheSet d ∪ {[key]}), None).

(** [dagPoolService.Has]. *)
Definition Has (d : dagPoolService) (key : string) : bool * option error :=
  match refCounter_Has d key with
  | (_, Some err) => (false, Some err)
  | (true, None) => (true, None)
  | (false, None) => cacheSet_Has d key
  end.

(** [dagPoolService.Add]. *)
Definition Add (d : dagPoolService) (block : Block) (user password : string)
    (pin : bool) : dagPoolService * option error :=
  if negb (CheckUserPolicy (iam d) user password WriteOnly) then
    (d, Some AccessDenied)
  else
    let key := Cid block in
    let addBlock := fun d0 : dagPoolService => putBlock d0 block in
    if pin then
      refCounter_IncrOrCreate (InterruptGC d) key addBlock
    else
      let '(has, _) := Has d key in
      if negb has then
        match addBlock d with
        | (d', Some err) => (d', Some err)
        | (d', None) => cacheSet_Add d' key
        end
      else (d, None).

(** [dagPoolService.Get]. *)
Definition Get (d : dagPoolService) (c : string) (user password : string)
  : dagPoolService * option Block * option error :=
  if negb (CheckUserPolicy (iam d) user password ReadOnly) then
    (d, None, Some AccessDenied)
  else
    let key := c in
    match Has d key with
    | (_, Some err) => (d, None, Some err)
    | (false, None) => (d, None, Some (ErrNotFoundCid c))
    | (true, None) => readBlock d c
    end.

(** [dagPoolService.Remove]. *)
Definition Remove (d : dagPoolService) (c : string) (user password : string)
    (unpin : bool) : dagPoolService * option error :=
  if negb (CheckUserPolicy (iam d) user password WriteOnly) then
    (d, Some AccessDenied)
  else if unpin then refCounter_Decr d c
  else (d, None).

(** [dagPoolService.GetSize]. *)
Definition GetSize (d : dagPoolService) (c : string) (user password : string)
  : dagPoolService * Z * option error :=
  if negb (CheckUserPolicy (iam d) user password ReadOnly) then
    (d, 0%Z, Some AccessDenied)
  else
    let key := c in
    match Has d key with
    | (_, Some err) => (d, 0%Z, Some err)
    | (false, None) => (d, 0%Z, Some (ErrNotFoundCid c))
    | (true, None) => readBlockSize d c
    end.

Definition lift_iam (d : dagPoolService) (r : IdentityUserSys * option error)
  : dagPoolService * option error :=
  (with_iam d (fst r), snd r).

(** [dagPoolService.AddUser]. *)
Definition AddUser (d : dagPoolService) (newUser : DagPoolUser)
    (user password : string) : dagPoolService * option error :=
  if negb (CheckAdmin (iam d) user password) then (d, Some AccessDenied)
  else if IsAdmin (iam d) (Username newUser) then
    (d, Some (ErrorNew "the user already exists"))
  else if is_nil (snd (iam_QueryUser (iam d) (Username newUser))) then
    (d, Some (ErrorNew "the user already exists"))
  else lift_iam d (iam_AddUser (iam d) newUser).

(** [dagPoolService.RemoveUser]. *)
Definition RemoveUser (d : dagPoolService) (rmUser : string)
    (user password : string) : dagPoolService * option error :=
  if negb (CheckAdmin (iam d) user password) then (d, Some AccessDenied)
  else if IsAdmin (iam d) rmUser then
    (d, Some (ErrorNew "refuse to remove the admin user"))
  else lift_iam d (iam_RemoveUser (iam d) rmUser).

(** [dagPoolService.QueryUser]. *)
Definition QueryUser (d : dagPoolService) (qUser : string)
    (user password : string) : option DagPoolUser * option error :=
  if negb (CheckUser (iam d) user password) then (None, Some AccessDenied)
  else if IsAdmin (iam d) user then iam_QueryUser (iam d) qUser
  else if negb (bool_decide (qUser = user)) then (None, Some AccessDenied)
  else iam_QueryUser (iam d) qUser.

(** [dagPoolService.UpdateUser]. *)
Definition UpdateUser (d : dagPoolService) (uUser : DagPoolUser)
    (user password : string) : dagPoolService * option error :=
  if negb (CheckAdmin (iam d) user password) then (d, Some AccessDenied)
  else if IsAdmin (iam d) (Username uUser) then
    (d, Some (ErrorNew "refuse to update the admin user"))
  else
    match iam_QueryUser (iam d) (Username uUser) with
    | (Some u, None) =>
        let u1 := if bool_decide (Password uUser = ""%string) then u
                  else {| Username := Username u; Password := Password uUser;
                          Policy := Policy u; Capacity := Capacity u |} in
        let u2 := if bool_decide (Policy uUser = ""%string) then u1
                  else {| Username := Username u1; Password := Password u1;
                          Policy := Policy uUser; Capacity := Capacity u1 |} in
        let u3 := if (Capacity uUser =? 0)%Z then u2
                  else {| Username := Username u2; Password := Password u2;
                          Policy := Policy u2; Capacity := Capacity uUser |} in
        lift_iam d (iam_UpdateUser (iam d) u3)
    | (_, Some _) => (d, Some (ErrorNew "not found the user"))
    | (None, None) => (d, Some Panic)
    end.

(** The user-administration requests a client can send, and a run of a
    sequence of them. *)
Inductive UserOp : Type :=
| OpAddUser (newUser : DagPoolUser) (user password : string)
| OpRemoveUser (rmUser : string) (user password : string)
| OpQueryUser (qUser : string) (user password : string)
| OpUpdateUser (uUser : DagPoolUser) (user password : string).

Definition step (d : dagPoolService) (op : UserOp) : dagPoolService :=
  match op with
  | OpAddUser u user password => fst (AddUser d u user password)
  | OpRemoveUser r user password => fst (RemoveUser d r user password)
  | OpQueryUser _ _ _ => d
  | OpUpdateUser u user password => fst (UpdateUser d u user password)
  end.

Definition run (d : dagPoolService) (ops : list UserOp) : dagPoolService :=
  fold_left step ops d.

End Service.

Arguments dagPoolService B : clear implicits.

End poolservice.

(** The DagNode of package [node] as a block backend. *)
#[global] Instance DagNode_BlockService `{RS : ReedSolomon}
  : poolservice.BlockService DagNode :=
  {| poolservice.bs_Put := Put;
     poolservice.bs_Get := Get;
     poolservice.bs_GetSize := GetSize |}.

(** ** Part VI. Observations and concrete configurations *)

(** What member [n] holds for [key] in cask [id]. *)
Definition member_shard (id : Z) (key : string) (n : SliceNode) : option shard :=
  c ← caskMap n !! id; c !! key.

(** The shard of block [cid] that the [i]-th member of [d] holds. *)
Definition stored_shard (d : DagNode) (i : nat) (cid : string) : option shard :=
  n ← nodes d !! i;
  id ← fileID d (sha256String cid);
  member_shard id (sha256String cid) n.

(** The shards [Put] hands to the members for a block. *)
Definition shards_of `{RS : ReedSolomon} (d : DagNode) (block : Block) : list shard :=
  fst (EncodeData
         (fst (NewErasure (dataBlocks d) (parityBlocks d) (length (RawData block))))
         (RawData block)).

(** A codec for closed examples: every parity shard is the XOR of the data
    shards, and nothing is ever reconstructed. *)
Definition xor_byte (a b : Byte.byte) : Byte.byte :=
  Hash.byte_of_Z (Z.lxor (Hash.byte_val a) (Hash.byte_val b)).

Fixpoint xor_shard (a b : shard) : shard :=
  match a, b with
  | x :: a', y :: b' => xor_byte x y :: xor_shard a' b'
  | _, _ => []
  end.

Definition xor_all (ds : list shard) : shard :=
  match ds with
  | [] => []
  | d :: rest => fold_left xor_shard rest d
  end.

Definition xor_codec : ReedSolomon :=
  {| rs_parity := fun _ m ds => repeat (xor_all ds) m;
     rs_reconstruct := fun _ _ ss => ss |}.

Definition empty_slice (caskNum : Z) (free : nat) : SliceNode :=
  {| CaskNum := caskNum; caskMap := ∅; ids := [];
     disk_free := free; open_fails := false |}.

(** The DagNode of [TestDagNode]: two data blocks, one parity block, three
    members. *)
Definition test_node : DagNode :=
  {| nodes := [empty_slice 256 4096; empty_slice 256 4096; empty_slice 256 4096];
     db := ∅; dataBlocks := 2; parityBlocks := 1 |}.

(** The same, with the disk of the second member nearly full. *)
Definition full_disk_node : DagNode :=
  {| nodes := [empty_slice 256 4096; empty_slice 256 16; empty_slice 256 4096];
     db := ∅; dataBlocks := 2; parityBlocks := 1 |}.

(** Three members again, built as [NewDagNode] builds them, each from its
    own [CaskNum] of the configuration: 256 for the first, 16 for the
    other two. *)
Definition mixed_cask_node : DagNode :=
  {| nodes := [empty_slice 256 4096; empty_slice 16 4096; empty_slice 16 4096];
     db := ∅; dataBlocks := 2; parityBlocks := 1 |}.

(** The block of [TestDagNode], content "123456". *)
Definition test_block : Block :=
  {| RawData := list_byte_of_string "123456"; Cid := "QmTest" |}.

Definition alice : poolservice.DagPoolUser :=
  {| poolservice.Username := "alice"; poolservice.Password := "alicepw";
     poolservice.Policy := poolservice.ReadOnly; poolservice.Capacity := 0 |}.

Definition bob : poolservice.DagPoolUser :=
  {| poolservice.Username := "bob"; poolservice.Password := "bobpw";
     poolservice.Policy := poolservice.ReadWrite; poolservice.Capacity := 0 |}.

(** A service with the default root account of the daemon and two users. *)
Definition test_iam : poolservice.IdentityUserSys :=
  {| poolservice.rootUser := "dagpool"; poolservice.rootPassword := "dagpool";
     poolservice.userStore := <["alice" := alice]> (<["bob" := bob]> ∅) |}.

(** Every user record is stored under its own user name. *)
Definition well_keyed (i : poolservice.IdentityUserSys) : Prop :=
  forall k u, poolservice.userStore i !! k = Some u -> poolservice.Username u = k.

(** No stored record carries the root user's name. *)
Definition root_unshadowed (i : poolservice.IdentityUserSys) : Prop :=
  poolservice.userStore i !! poolservice.rootUser i = None.

Definition test_backend : poolservice.BlockService DagNode :=
  @DagNode_BlockService xor_codec.

Definition test_pool : poolservice.dagPoolService DagNode :=
  {| poolservice.iam := test_iam;
     poolservice.refCounter := ∅;
     poolservice.cacheSet := ∅;
     poolservice.gcInterrupted := false;
     poolservice.backend := test_node;
     poolservice.calls := [] |}.

(** ** Part VII. The shard key and the cask it routes to *)

Example sha256String_abc :
  sha256String "abc"
  = "ba7816bf8f01cfea414140de5dae2223b00361a396177a9cb410ff61f20015ad"%string.
Proof. vm_compute. reflexivity. Qed.

Example sha256String_empty :
  sha256String ""
  = "e3b0c44298fc1c149afbf4c8996fb92427ae41e4649b934ca495991b7852b855"%string.
Proof. vm_compute. reflexivity. Qed.

Example K256_ends :
  length Hash.K256 = 64
  /\ head Hash.K256 = Some 0x428a2f98%Z
  /\ last Hash.K256 = Some 0xc67178f2%Z
  /\ Hash.h0 Hash.init256 = 0x6a09e667%Z
  /\ Hash.h7 Hash.init256 = 0x5be0cd19%Z.
Proof. vm_compute. repeat split. Qed.

Example ChecksumIEEE_check :
  Hash.ChecksumIEEE (list_byte_of_string "123456789") = 0xcbf43926%Z.
Proof. vm_compute. reflexivity. Qed.

Lemma unhex_hex_of_byte (b : Byte.byte) (rest : list ascii) :
  Hash.unhex (Hash.hex_of_byte b ++ rest)
  = match Hash.unhex rest with Some bs => Some (b :: bs) | None => None end.
Proof. destruct b; reflexivity. Qed.

Lemma unhex_flat_map (bs : list Byte.byte) :
  Hash.unhex (flat_map Hash.hex_of_byte bs) = Some bs.
Proof.
  induction bs as [|b bs IH]; [reflexivity|].
  change (flat_map Hash.hex_of_byte (b :: bs))
    with (Hash.hex_of_byte b ++ flat_map Hash.hex_of_byte bs).
  rewrite unhex_hex_of_byte, IH. reflexivity.
Qed.

Lemma hex_of_byte_lower (b : Byte.byte) :
  forallb Hash.is_lower_hex (Hash.hex_of_byte b) = true.
Proof. destruct b; reflexivity. Qed.

Lemma flat_map_hex_lower (bs : list Byte.byte) :
  forallb Hash.is_lower_hex (flat_map Hash.hex_of_byte bs) = true.
Proof.
  induction bs as [|b bs IH]; [reflexivity|].
  change (flat_map Hash.hex_of_byte (b :: bs))
    with (Hash.hex_of_byte b ++ flat_map Hash.hex_of_byte bs).
  rewrite forallb_app, hex_of_byte_lower, IH. reflexivity.
Qed.

Lemma flat_map_hex_length (bs : list Byte.byte) :
  length (flat_map Hash.hex_of_byte bs) = 2 * length bs.
Proof.
  induction bs as [|b bs IH]; [reflexivity|].
  cbn [flat_map length app Hash.hex_of_byte]. rewrite IH. lia.
Qed.

Lemma string_of_list_ascii_length (l : list ascii) :
  String.length (string_of_list_ascii l) = length l.
Proof. induction l as [|a l IH]; cbn; [reflexivity | now rewrite IH]. Qed.

Lemma Sum256_length (msg : list Byte.byte) : length (Hash.Sum256 msg) = 32.
Proof.
  unfold Hash.Sum256, Hash.digest_bytes.
  rewrite length_map, !length_app. reflexivity.
Qed.

Lemma ChecksumIEEE_mod_range (p : list Byte.byte) (n : Z) :
  (0 < n)%Z -> (0 <= Hash.ChecksumIEEE p mod n < n)%Z.
Proof. intros Hn. apply Z.mod_pos_bound. exact Hn. Qed.

(** ** Part VIII. [DagNode.Put]: what the members hold afterwards *)

Section PutLoop.
Variables (id : Z) (key : string) (shards : list shard).

Lemma handleCreateCask_CaskNum (n : SliceNode) :
  CaskNum (fst (handleCreateCask n id)) = CaskNum n.
Proof.
  unfold handleCreateCask.
  destruct (hasId (ids n) id); [reflexivity|].
  destruct (open_fails n); reflexivity.
Qed.

Lemma put_member_CaskNum (sh : option shard) (n : SliceNode) :
  CaskNum (fst (put_member id key sh n)) = CaskNum n.
Proof.
  unfold put_member.
  destruct (caskMap n !! id) as [c|] eqn:Hc.
  - rewrite Hc. destruct sh as [v|]; [|reflexivity].
    destruct (cask_Put (disk_free n) c key v) as [[free c'] err]. reflexivity.
  - pose proof (handleCreateCask_CaskNum n) as Hn.
    destruct (handleCreateCask n id) as [n1 [e|]]; simpl in Hn; [exact Hn|].
    destruct (caskMap n1 !! id) as [c|]; [|exact Hn].
    destruct sh as [v|]; [|exact Hn].
    destruct (cask_Put (disk_free n1) c key v) as [[free c'] err]. exact Hn.
Qed.

Lemma cask_Put_ok (free : nat) (c : Cask) (v : shard) free' c' :
  cask_Put free c key v = (free', c', None) -> c' !! key = Some v.
Proof.
  unfold cask_Put.
  destruct (vlog_record_size key v <=? free); intros H; inversion H.
  apply lookup_insert_eq.
Qed.

Lemma member_shard_set_cask (n : SliceNode) (free : nat) (c : Cask) :
  member_shard id key (set_cask n id free c) = c !! key.
Proof. unfold member_shard, set_cask. simpl. rewrite lookup_insert_eq. reflexivity. Qed.

(** A member write that succeeds leaves the shard under the key. *)
Lemma put_member_stores (sh : option shard) (n n' : SliceNode) :
  put_member id key sh n = (n', None) ->
  exists v, sh = Some v /\ member_shard id key n' = Some v.
Proof.
  unfold put_member.
  destruct (match caskMap n !! id with
            | Some _ => (n, None)
            | None => handleCreateCask n id
            end) as [n1 [e|]]; [discriminate|].
  destruct (caskMap n1 !! id) as [c|]; [|discriminate].
  destruct sh as [v|]; [|discriminate].
  destruct (cask_Put (disk_free n1) c key v) as [[free c'] err] eqn:Hput.
  intros H. inversion H; subst. exists v. split; [reflexivity|].
  rewrite member_shard_set_cask. eapply cask_Put_ok, Hput.
Qed.

Lemma put_loop_length (i : nat) (ns : list SliceNode) :
  length (fst (put_loop id key shards i ns)) = length ns.
Proof.
  revert i. induction ns as [|n ns IH]; intros i; [reflexivity|].
  simpl. destruct (put_member id key (shards !! i) n) as [n' [e|]]; [reflexivity|].
  specialize (IH (S i)).
  destruct (put_loop id key shards (S i) ns) as [rest err]. simpl in *. lia.
Qed.

Lemma put_loop_CaskNum (i : nat) (ns : list SliceNode) :
  map CaskNum (fst (put_loop id key shards i ns)) = map CaskNum ns.
Proof.
  revert i. induction ns as [|n ns IH]; intros i; [reflexivity|].
  simpl. pose proof (put_member_CaskNum (shards !! i) n) as Hn.
  destruct (put_member id key (shards !! i) n) as [n' [e|]]; simpl in *.
  - now rewrite Hn.
  - specialize (IH (S i)).
    destruct (put_loop id key shards (S i) ns) as [rest err]. simpl in *.
    now rewrite Hn, IH.
Qed.

(** The loop succeeds exactly when every member write does. *)
Lemma put_loop_success (i : nat) (ns : list SliceNode) :
  snd (put_loop id key shards i ns) = None <->
  forall j n, ns !! j = Some n ->
              snd (put_member id key (shards !! (i + j)) n) = None.
Proof.
  revert i. induction ns as [|n ns IH]; intros i; simpl.
  - split; [intros _ j n Hj; discriminate | reflexivity].
  - destruct (put_member id key (shards !! i) n) as [n' [e|]] eqn:Hm.
    + split; [discriminate|]. intros H. specialize (H 0 n eq_refl).
      rewrite Nat.add_0_r, Hm in H. exact H.
    + specialize (IH (S i)).
      destruct (put_loop id key shards (S i) ns) as [rest err]. cbn [fst snd] in *.
      rewrite IH. split.
      * intros H [|j] m Hj.
        -- injection Hj as <-. now rewrite Nat.add_0_r, Hm.
        -- replace (i + S j) with (S i + j) by lia. now apply H.
      * intros H j m Hj. replace (S i + j) with (i + S j) by lia. now apply H.
Qed.

Lemma put_loop_lookup (i : nat) (ns : list SliceNode) :
  snd (put_loop id key shards i ns) = None ->
  forall j n, ns !! j = Some n ->
    fst (put_loop id key shards i ns) !! j
    = Some (fst (put_member id key (shards !! (i + j)) n)).
Proof.
  revert i. induction ns as [|n ns IH]; intros i; simpl.
  - intros _ j n Hj. discriminate.
  - destruct (put_member id key (shards !! i) n) as [n' [e|]] eqn:Hm;
      [discriminate|].
    specialize (IH (S i)).
    destruct (put_loop id key shards (S i) ns) as [rest err]. cbn [fst snd] in *.
    intros He [|j] m Hj.
    + injection Hj as <-. now rewrite Nat.add_0_r, Hm.
    + replace (i + S j) with (S i + j) by lia. now apply IH.
Qed.

(** The loop stops at the first member write that fails: its error is
    returned, the members before it keep what was written, the members
    after it are not touched. *)
Lemma put_loop_first_failure (i : nat) (ns : list SliceNode) (j : nat)
    (n : SliceNode) (e : error) :
  ns !! j = Some n ->
  snd (put_member id key (shards !! (i + j)) n) = Some e ->
  (forall j' n', j' < j -> ns !! j' = Some n' ->
                 snd (put_member id key (shards !! (i + j')) n') = None) ->
  snd (put_loop id key shards i ns) = Some e
  /\ (forall j' n', j' < j -> ns !! j' = Some n' ->
        fst (put_loop id key shards i ns) !! j'
        = Some (fst (put_member id key (shards !! (i + j')) n')))
  /\ (forall j', j < j' -> fst (put_loop id key shards i ns) !! j' = ns !! j').
Proof.
  revert i j. induction ns as [|m ns IH]; intros i j Hj He Hbefore;
    [discriminate|].
  destruct j as [|j].
  - injection Hj as ->. rewrite Nat.add_0_r in He. simpl.
    destruct (put_member id key (shards !! i) n) as [n' [e'|]]; cbn [fst snd] in *;
      [|discriminate].
    split; [exact He|]. split; [intros; lia|].
    intros [|j'] Hlt; [lia | reflexivity].
  - simpl.
    pose proof (Hbefore 0 m ltac:(lia) eq_refl) as H0.
    rewrite Nat.add_0_r in H0.
    destruct (put_member id key (shards !! i) m) as [m' [e'|]] eqn:Hm;
      cbn [fst snd] in H0; [discriminate|].
    destruct (IH (S i) j Hj) as (Herr & Hlow & Hhigh).
    + replace (S i + j) with (i + S j) by lia. exact He.
    + intros j' n' Hlt Hl. replace (S i + j') with (i + S j') by lia.
      apply Hbefore; [lia | exact Hl].
    + destruct (put_loop id key shards (S i) ns) as [rest err]. cbn [fst snd] in *.
      split; [exact Herr|]. split.
      * intros [|j'] n' Hlt Hl.
        -- injection Hl as <-. now rewrite Nat.add_0_r, Hm.
        -- replace (i + S j') with (S i + j') by lia.
           apply Hlow; [lia | exact Hl].
      * intros [|j'] Hlt; [lia|]. apply Hhigh. lia.
Qed.

End PutLoop.

Section PutFacts.
Context `{RS : ReedSolomon}.

Lemma NewErasure_ok (k m : Z) (size : nat) :
  (0 < k)%Z -> (0 <= m)%Z -> snd (NewErasure k m size) = None.
Proof.
  intros Hk Hm. unfold NewErasure.
  destruct (Z.leb_spec k 0); [lia|]. destruct (Z.ltb_spec m 0); [lia|].
  reflexivity.
Qed.

Lemma NewErasure_inv (k m : Z) (size : nat) (enc : Erasure) :
  NewErasure k m size = (enc, None) ->
  (0 < k)%Z /\ (0 <= m)%Z
  /\ enc = {| e_dataBlocks := k; e_parityBlocks := m; e_blockSize := size |}.
Proof.
  unfold NewErasure.
  destruct (Z.leb_spec k 0); [discriminate|].
  destruct (Z.ltb_spec m 0); [discriminate|].
  intros Heq. inversion Heq. repeat split; lia.
Qed.

Lemma fileID_CaskNum (d d' : DagNode) (key : string) :
  map CaskNum (nodes d') = map CaskNum (nodes d) ->
  fileID d' key = fileID d key.
Proof.
  unfold fileID. destruct (nodes d') as [|a l], (nodes d) as [|b l'];
    simpl; intros H; try discriminate; [reflexivity|].
  injection H as -> _. reflexivity.
Qed.

(** With sound erasure parameters and a cask id, [Put] is the size entry
    followed by the loop over the members. *)
Lemma Put_eq (d : DagNode) (block : Block) (id : Z) :
  (0 < dataBlocks d)%Z -> (0 <= parityBlocks d)%Z ->
  fileID d (sha256String (Cid block)) = Some id ->
  Put d block
  = (with_nodes (with_db d (<[Cid block := length (RawData block)]> (db d)))
       (fst (put_loop id (sha256String (Cid block)) (shards_of d block) 0 (nodes d))),
     snd (put_loop id (sha256String (Cid block)) (shards_of d block) 0 (nodes d))).
Proof.
  intros Hk Hm Hid. unfold Put, shards_of.
  pose proof (NewErasure_ok _ _ (length (RawData block)) Hk Hm) as He.
  destruct (NewErasure (dataBlocks d) (parityBlocks d) (length (RawData block)))
    as [enc err]. simpl in He. subst err.
  cbn [EncodeData Verify fst snd].
  change (fileID (with_db d (<[Cid block:=length (RawData block)]> (db d)))
                 (sha256String (Cid block)))
    with (fileID d (sha256String (Cid block))).
  rewrite Hid. cbn [with_db nodes].
  destruct (put_loop id (sha256String (Cid block))
              (split_shards (Z.to_nat (e_dataBlocks enc)) (RawData block) ++
               rs_parity (Z.to_nat (e_dataBlocks enc))
                 (Z.to_nat (e_parityBlocks enc))
                 (split_shards (Z.to_nat (e_dataBlocks enc)) (RawData block)))
              0 (nodes d)) as [ns err].
  reflexivity.
Qed.

(** A [Put] that returns nil went through every step. *)
Lemma Put_ok_inv (d d' : DagNode) (block : Block) :
  Put d block = (d', None) ->
  (0 < dataBlocks d)%Z /\ (0 <= parityBlocks d)%Z
  /\ exists id, fileID d (sha256String (Cid block)) = Some id.
Proof.
  unfold Put.
  destruct (NewErasure (dataBlocks d) (parityBlocks d) (length (RawData block)))
    as [enc [e|]] eqn:He; [discriminate|].
  apply NewErasure_inv in He as (Hk & Hm & _).
  cbn [EncodeData Verify fst snd].
  change (fileID (with_db d (<[Cid block:=length (RawData block)]> (db d)))
                 (sha256String (Cid block)))
    with (fileID d (sha256String (Cid block))).
  destruct (fileID d (sha256String (Cid block))) as [id|]; [|discriminate].
  intros _. repeat split; [exact Hk | exact Hm | now exists id].
Qed.

Lemma stored_shard_after_loop (d : DagNode) (m : gmap string nat) (id : Z)
    (cid : string) (shards : list shard) (i : nat) (n : SliceNode) :
  fileID d (sha256String cid) = Some id ->
  nodes d !! i = Some n ->
  fst (put_loop id (sha256String cid) shards 0 (nodes d)) !! i
    = Some (fst (put_member id (sha256String cid) (shards !! i) n)) ->
  snd (put_member id (sha256String cid) (shards !! i) n) = None ->
  exists v, shards !! i = Some v
    /\ stored_shard
         (with_nodes (with_db d m)
            (fst (put_loop id (sha256String cid) shards 0 (nodes d)))) i cid
       = Some v.
Proof.
  intros Hid Hn Hl Hs.
  destruct (put_member id (sha256String cid) (shards !! i) n) as [n' e] eqn:Hm.
  cbn [fst snd] in *. subst e.
  destruct (put_member_stores _ _ _ _ _ Hm) as (v & Hv & Hst).
  exists v. split; [exact Hv|].
  unfold stored_shard. cbn [with_nodes nodes]. rewrite Hl.
  rewrite (fileID_CaskNum d); [| apply put_loop_CaskNum].
  rewrite Hid. exact Hst.
Qed.

End PutFacts.

(** C2 (as the code has it).  [DagNode.Put] records the size entry first
    and then writes the members in order.  It returns nil exactly when
    every member write succeeds, and then every member holds its shard.
    It stops at the first member write that fails and returns that error
    without issuing any Delete: the members before the failing one keep
    the shards just written, the members after it are not touched, and the
    size entry stays. *)
Theorem Put_stops_at_first_failure `{RS : ReedSolomon}
    (d : DagNode) (block : Block) (id : Z) :
  (0 < dataBlocks d)%Z -> (0 <= parityBlocks d)%Z ->
  fileID d (sha256String (Cid block)) = Some id ->
  let key := sha256String (Cid block) in
  let shards := shards_of d block in
  let r := Put d block in
  db (fst r) = <[Cid block := length (RawData block)]> (db d)
  /\ (snd r = None <->
      forall i n, nodes d !! i = Some n ->
                  snd (put_member id key (shards !! i) n) = None)
  /\ (snd r = None ->
      forall i, i < length (nodes d) ->
        exists v, shards !! i = Some v /\ stored_shard (fst r) i (Cid block) = Some v)
  /\ (forall j n e,
        nodes d !! j = Some n ->
        snd (put_member id key (shards !! j) n) = Some e ->
        (forall i n', i < j -> nodes d !! i = Some n' ->
                      snd (put_member id key (shards !! i) n') = None) ->
        snd r = Some e
        /\ (forall i, i < j ->
              exists v, shards !! i = Some v
                        /\ stored_shard (fst r) i (Cid block) = Some v)
        /\ (forall i, j < i -> nodes (fst r) !! i = nodes d !! i)).
Proof.
  intros Hk Hm Hid key shards r. subst r.
  rewrite (Put_eq d block id Hk Hm Hid). fold key. fold shards.
  cbn [fst snd with_nodes with_db db nodes].
  split; [reflexivity|]. split; [apply (put_loop_success id key shards 0)|].
  split.
  - intros Hok i Hi.
    destruct (lookup_lt_is_Some_2 (nodes d) i Hi) as [n Hn].
    apply (stored_shard_after_loop d _ id (Cid block) shards i n Hid Hn).
    + apply (put_loop_lookup id key shards 0 (nodes d) Hok i n Hn).
    + apply (proj1 (put_loop_success id key shards 0 (nodes d)) Hok i n Hn).
  - intros j n e Hn He Hbefore.
    destruct (put_loop_first_failure id key shards 0 (nodes d) j n e Hn He Hbefore)
      as (Herr & Hlow & Hhigh).
    split; [exact Herr|]. split; [|exact Hhigh].
    intros i Hi.
    assert (Hlen : i < length (nodes d)).
    { apply lookup_lt_Some in Hn. lia. }
    destruct (lookup_lt_is_Some_2 (nodes d) i Hlen) as [n' Hn'].
    apply (stored_shard_after_loop d _ id (Cid block) shards i n' Hid Hn').
    + apply (Hlow i n' Hi Hn').
    + apply (Hbefore i n' Hi Hn').
Qed.

Lemma Put_stops_at_first_failure_witness :
  snd (@Put xor_codec full_disk_node test_block) = Some ErrNoSpace
  /\ stored_shard (fst (@Put xor_codec full_disk_node test_block)) 0 "QmTest"
     = Some (list_byte_of_string "123")
  /\ nodes (fst (@Put xor_codec full_disk_node test_block)) !! 2
     = Some (empty_slice 256 4096).
Proof.
  destruct (@Put_stops_at_first_failure xor_codec full_disk_node test_block 132)
    as (_ & _ & _ & H).
  - vm_compute. reflexivity.
  - vm_compute. discriminate.
  - vm_compute. reflexivity.
  - destruct (H 1 (empty_slice 256 16) ErrNoSpace) as (Herr & Hlow & Hhigh).
    + reflexivity.
    + vm_compute. reflexivity.
    + intros i n' Hi Hn'. assert (i = 0) as -> by lia.
      vm_compute in Hn'. injection Hn' as <-. vm_compute. reflexivity.
    + split; [exact Herr|]. split.
      * destruct (Hlow 0) as (v & Hv & Hst); [lia|].
        vm_compute in Hv. injection Hv as <-. exact Hst.
      * rewrite (Hhigh 2) by lia. reflexivity.
Defined.

(** C2, the claim as the spec states it, fails: with the disk of the second
    of three members full, [Put] of the block "123456" returns the error,
    and afterwards the first member still holds its shard "123" and the
    size entry 6 is still there, neither of which was there before. *)
Lemma Put_failure_leaves_shard_and_size :
  snd (@Put xor_codec full_disk_node test_block) = Some ErrNoSpace
  /\ stored_shard full_disk_node 0 "QmTest" = None
  /\ db full_disk_node !! "QmTest" = None
  /\ stored_shard (fst (@Put xor_codec full_disk_node test_block)) 0 "QmTest"
     = Some (list_byte_of_string "123")
  /\ db (fst (@Put xor_codec full_disk_node test_block)) !! "QmTest" = Some 6.
Proof. vm_compute. repeat split. Qed.

(** ** Part VIII-b. The cask a shard key routes to, in every member *)

(** C8 (as the code has it).  For every CID string [c], the shard key
    [sha256String c] is the lowercase hexadecimal rendering of SHA-256 of
    [c]: 64 characters, each one of 0-9 or a-f, which read back as the 32
    bytes of the digest.  A DagNode computes one cask id for the key,
    CRC32 (IEEE) of the key modulo the [CaskNum] of its first slice store,
    and it depends on nothing else.  [Put] uses that one id in every
    member: after a [Put] that returned nil each member holds its shard in
    the cask of that id, whatever the member's own [CaskNum] is, and its
    own [CaskNum] is what it was.  For a member whose [CaskNum] equals the
    first store's, the id is CRC32 of the key modulo its own [CaskNum]. *)
Theorem shard_key_and_cask_of_cid `{RS : ReedSolomon} (c : string) :
  let key := sha256String c in
  let digest := Hash.Sum256 (list_byte_of_string c) in
  let crc := Hash.ChecksumIEEE (list_byte_of_string key) in
  key = Hash.sprintf_x digest
  /\ length digest = 32
  /\ String.length key = 64
  /\ forallb Hash.is_lower_hex (list_ascii_of_string key) = true
  /\ Hash.unhex (list_ascii_of_string key) = Some digest
  /\ (forall (d : DagNode) (n0 : SliceNode) (rest : list SliceNode),
        nodes d = n0 :: rest -> CaskNum n0 <> 0%Z ->
        fileID d key = Some (crc mod CaskNum n0)%Z)
  /\ (forall d d' : DagNode,
        CaskNum <$> head (nodes d) = CaskNum <$> head (nodes d') ->
        fileID d key = fileID d' key)
  /\ (forall (d d' : DagNode) (block : Block) (n0 : SliceNode)
             (rest : list SliceNode),
        Cid block = c -> nodes d = n0 :: rest ->
        Put d block = (d', None) ->
        forall (i : nat) (n : SliceNode), nodes d !! i = Some n ->
          exists (n' : SliceNode) (v : shard),
            nodes d' !! i = Some n'
            /\ CaskNum n' = CaskNum n
            /\ shards_of d block !! i = Some v
            /\ member_shard (crc mod CaskNum n0)%Z key n' = Some v
            /\ (CaskNum n' = CaskNum n0 ->
                member_shard (crc mod CaskNum n')%Z key n' = Some v)).
Proof.
  cbv zeta. unfold sha256String at 1 2 3 4, Hash.sprintf_x.
  rewrite list_ascii_of_string_of_list_ascii, string_of_list_ascii_length.
  rewrite flat_map_hex_length, Sum256_length.
  split; [reflexivity|]. split; [reflexivity|]. split; [reflexivity|].
  split; [apply flat_map_hex_lower|]. split; [apply unhex_flat_map|].
  fold (Hash.sprintf_x (Hash.Sum256 (list_byte_of_string c))).
  fold (sha256String c).
  split; [|split].
  - intros d n0 rest Hn Hc. unfold fileID. rewrite Hn.
    destruct (Z.eqb_spec (CaskNum n0) 0); [contradiction | reflexivity].
  - intros d d' Hh. unfold fileID.
    destruct (nodes d) as [|a l], (nodes d') as [|a' l']; simpl in Hh;
      try discriminate; [reflexivity|].
    injection Hh as ->. reflexivity.
  - intros d d' block n0 rest Hcid Hn HPut i n Hi. subst c.
    destruct (Put_ok_inv d d' block HPut) as (Hk & Hm & id & Hid).
    assert (Hid' : id = (Hash.ChecksumIEEE
                           (list_byte_of_string (sha256String (Cid block)))
                         mod CaskNum n0)%Z).
    { unfold fileID in Hid. rewrite Hn in Hid.
      destruct (CaskNum n0 =? 0)%Z; [discriminate|]. now injection Hid as <-. }
    rewrite (Put_eq d block id Hk Hm Hid) in HPut.
    injection HPut as Hd' Hok.
    pose proof (put_loop_lookup id _ _ 0 (nodes d) Hok i n Hi) as Hl.
    pose proof (proj1 (put_loop_success id _ _ 0 (nodes d)) Hok i n Hi) as Hs.
    cbn [Nat.add] in Hl, Hs.
    pose proof (put_member_CaskNum id (sha256String (Cid block))
                  (shards_of d block !! i) n) as Hc.
    destruct (put_member id (sha256String (Cid block))
                (shards_of d block !! i) n) as [n' e] eqn:Hpm.
    cbn [fst snd] in *. subst e.
    destruct (put_member_stores _ _ _ _ _ Hpm) as (v & Hv & Hst).
    exists n', v. rewrite <- Hd'. cbn [with_nodes nodes].
    split; [exact Hl|]. split; [exact Hc|]. split; [exact Hv|].
    rewrite <- Hid'. split; [exact Hst|].
    intros Heq. rewrite Heq, <- Hid'. exact Hst.
Qed.

Lemma shard_key_and_cask_of_cid_witness :
  fileID test_node (sha256String "QmTest") = Some 132%Z
  /\ exists (n' : SliceNode) (v : shard),
       nodes (fst (@Put xor_codec mixed_cask_node test_block)) !! 1 = Some n'
       /\ CaskNum n' = 16%Z
       /\ member_shard 132 (sha256String "QmTest") n' = Some v.
Proof.
  destruct (@shard_key_and_cask_of_cid xor_codec "QmTest")
    as (_ & _ & _ & _ & _ & Hid & _ & Hput).
  split.
  - rewrite (Hid test_node (empty_slice 256 4096)
               [empty_slice 256 4096; empty_slice 256 4096] eq_refl).
    + vm_compute. reflexivity.
    + vm_compute. discriminate.
  - destruct (Hput mixed_cask_node
                (fst (@Put xor_codec mixed_cask_node test_block)) test_block
                (empty_slice 256 4096)
                [empty_slice 16 4096; empty_slice 16 4096]
                eq_refl eq_refl) with (i := 1) (n := empty_slice 16 4096)
      as (n' & v & Hn' & Hc & _ & Hst & _).
    + vm_compute. reflexivity.
    + reflexivity.
    + exists n', v. split; [exact Hn'|]. split; [exact Hc|].
      replace 132%Z
        with (Hash.ChecksumIEEE (list_byte_of_string (sha256String "QmTest"))
              mod CaskNum (empty_slice 256 4096))%Z
        by (vm_compute; reflexivity).
      exact Hst.
Defined.

(** C8, the claim as the spec states it, fails for a store whose [CaskNum]
    is not the first store's.  With members of [CaskNum] 256, 16 and 16,
    [Put] of the block "123456" returns nil; CRC32 of the shard key is 132
    modulo 256 and 4 modulo 16; the second member, whose [CaskNum] is 16,
    has created cask 132 and holds its shard "456" there, and has no cask
    4. *)
Lemma Put_uses_first_store_modulus :
  snd (@Put xor_codec mixed_cask_node test_block) = None
  /\ CaskNum <$> nodes (fst (@Put xor_codec mixed_cask_node test_block)) !! 1
     = Some 16%Z
  /\ (Hash.ChecksumIEEE (list_byte_of_string (sha256String "QmTest")) mod 256
      = 132)%Z
  /\ (Hash.ChecksumIEEE (list_byte_of_string (sha256String "QmTest")) mod 16
      = 4)%Z
  /\ ids <$> nodes (fst (@Put xor_codec mixed_cask_node test_block)) !! 1
     = Some [132%Z]
  /\ (nodes (fst (@Put xor_codec mixed_cask_node test_block)) !! 1
        ≫= member_shard 132 (sha256String "QmTest"))
     = Some (list_byte_of_string "456")
  /\ (nodes (fst (@Put xor_codec mixed_cask_node test_block)) !! 1
        ≫= member_shard 4 (sha256String "QmTest"))
     = None
  /\ (nodes (fst (@Put xor_codec mixed_cask_node test_block)) !! 1
        ≫= fun n => Some (bool_decide (is_Some (caskMap n !! 4%Z))))
     = Some false.
Proof. vm_compute. repeat split. Qed.

(** ** Part IX. Splitting, joining and the round trip through a DagNode *)

Lemma shard_len_covers (k len : nat) : 0 < k -> len <= k * shard_len k len.
Proof.
  intros Hk. unfold shard_len.
  pose proof (Nat.div_mod_eq (len + k - 1) k) as Hd.
  pose proof (Nat.mod_upper_bound (len + k - 1) k ltac:(lia)) as Hr.
  lia.
Qed.

Lemma shard_len_pos (k len : nat) : 0 < k -> 0 < len -> 0 < shard_len k len.
Proof.
  intros Hk Hl. unfold shard_len.
  apply Nat.div_str_pos. lia.
Qed.

Lemma zero_pad_length (k : nat) (data : list Byte.byte) :
  0 < k -> length (zero_pad k data) = k * shard_len k (length data).
Proof.
  intros Hk. unfold zero_pad. rewrite length_app, repeat_length.
  pose proof (shard_len_covers k (length data) Hk). lia.
Qed.

Lemma take_zero_pad (k : nat) (data rest : list Byte.byte) :
  take (length data) (zero_pad k data ++ rest) = data.
Proof. unfold zero_pad. rewrite <- app_assoc. apply take_app_length. Qed.

Lemma concat_chunks {A} (per k : nat) (l : list A) :
  concat (map (fun i => take per (drop (i * per) l)) (seq 0 k)) = take (k * per) l.
Proof.
  induction k as [|k IH]; [reflexivity|].
  rewrite seq_S, map_app, concat_app, IH. cbn [map concat Nat.add].
  rewrite app_nil_r, take_take_drop. f_equal. lia.
Qed.

Lemma split_shards_length (k : nat) (data : list Byte.byte) :
  length (split_shards k data) = k.
Proof. unfold split_shards. now rewrite length_map, length_seq. Qed.

(** Joining the data shards gives back the zero-padded data. *)
Lemma concat_split_shards (k : nat) (data : list Byte.byte) :
  0 < k -> concat (split_shards k data) = zero_pad k data.
Proof.
  intros Hk. unfold split_shards. rewrite concat_chunks.
  apply take_ge. rewrite zero_pad_length by exact Hk. lia.
Qed.

(** Every data shard is [shard_len] bytes long. *)
Lemma split_shards_shard_len (k : nat) (data : list Byte.byte) (s : shard) :
  0 < k -> s ∈ split_shards k data -> length s = shard_len k (length data).
Proof.
  intros Hk. unfold split_shards. rewrite list_elem_of_fmap.
  intros (i & -> & Hi). apply elem_of_seq in Hi.
  rewrite length_take, length_drop, zero_pad_length by exact Hk.
  nia.
Qed.

Lemma split_shards_present (k : nat) (data : list Byte.byte) :
  0 < k -> data <> [] -> existsb absent (split_shards k data) = false.
Proof.
  intros Hk Hd. apply not_true_is_false. intros Hex.
  apply existsb_exists in Hex as (s & Hin & Habs).
  apply list_elem_of_In in Hin.
  apply (split_shards_shard_len k data s Hk) in Hin.
  assert (0 < length data) by (destruct data; [contradiction | simpl; lia]).
  pose proof (shard_len_pos k (length data) Hk ltac:(assumption)).
  destruct s; [simpl in Hin; lia | discriminate].
Qed.

Section RoundTrip.
Context `{RS : ReedSolomon}.

(** The loop of [Get] returns what the members hold. *)
Lemma read_loop_stored (id : Z) (key : string) (ns : list SliceNode)
    (vs : list shard) :
  Forall2 (fun n v => member_shard id key n = Some v) ns vs ->
  read_loop id key ns = (vs, None).
Proof.
  induction 1 as [|n v ns vs Hn _ IH]; [reflexivity|].
  simpl. unfold member_shard in Hn.
  destruct (caskMap n !! id) as [c|]; [|discriminate].
  simpl in Hn. unfold cask_Read. rewrite Hn, IH. reflexivity.
Qed.

(** After a loop of [Put] that succeeded, the members hold the first
    shards, one each, in order. *)
Lemma put_loop_then_read (id : Z) (key : string) (shards : list shard)
    (ns : list SliceNode) :
  snd (put_loop id key shards 0 ns) = None ->
  length ns <= length shards
  /\ read_loop id key (fst (put_loop id key shards 0 ns))
     = (take (length ns) shards, None).
Proof.
  intros Hok.
  assert (Hall : forall j n, ns !! j = Some n ->
            exists v, shards !! j = Some v
              /\ member_shard id key (fst (put_member id key (shards !! j) n)) = Some v).
  { intros j n Hn.
    pose proof (proj1 (put_loop_success id key shards 0 ns) Hok j n Hn) as Hs.
    cbn [Nat.add] in Hs.
    destruct (put_member id key (shards !! j) n) as [n' e] eqn:Hm.
    cbn [fst snd] in *. subst e.
    exact (put_member_stores _ _ _ _ _ Hm). }
  assert (Hlen : length ns <= length shards).
  { destruct ns as [|n0 ns0] eqn:Hns; [simpl; lia|]. rewrite <- Hns in *.
    assert (Hlast : length ns - 1 < length ns) by (rewrite Hns; simpl; lia).
    destruct (lookup_lt_is_Some_2 ns _ Hlast) as [n Hn].
    destruct (Hall _ n Hn) as (v & Hv & _).
    apply lookup_lt_Some in Hv. lia. }
  split; [exact Hlen|].
  apply read_loop_stored, Forall2_same_length_lookup_2.
  - rewrite put_loop_length, length_take. lia.
  - intros j n' v Hn' Hv.
    assert (Hj : j < length ns).
    { apply lookup_lt_Some in Hn'. now rewrite put_loop_length in Hn'. }
    destruct (lookup_lt_is_Some_2 ns j Hj) as [n Hn].
    rewrite (put_loop_lookup id key shards 0 ns Hok j n Hn) in Hn'.
    cbn [Nat.add] in Hn'. injection Hn' as <-.
    destruct (Hall j n Hn) as (v' & Hv' & Hst).
    rewrite lookup_take_lt in Hv by exact Hj.
    rewrite Hv' in Hv. injection Hv as <-. exact Hst.
Qed.

(** Encode, decode, join and trim is the identity on the payload; when
    the payload is not empty, decoding leaves the shards as they are and
    the data shards joined are the zero-padded payload. *)
Lemma encode_decode_trim (k m : Z) (data : list Byte.byte) (n : nat) :
  (0 < k)%Z -> Z.to_nat k <= n ->
  let enc := fst (NewErasure k m (length data)) in
  let shards := take n (fst (EncodeData enc data)) in
  take (length data) (concat (DecodeDataBlocks enc shards)) = data
  /\ length data <= length (concat (DecodeDataBlocks enc shards))
  /\ (data <> [] ->
      DecodeDataBlocks enc shards = shards
      /\ concat (take (Z.to_nat k) shards) = zero_pad (Z.to_nat k) data).
Proof.
  intros Hk Hn. cbv zeta.
  assert (Hkn : 0 < Z.to_nat k) by lia.
  destruct (decide (data = [])) as [->|Hne].
  - split; [reflexivity|]. split; [simpl; lia|]. intros Hne. contradiction.
  - set (enc := fst (NewErasure k m (length data))).
    set (shards := take n (fst (EncodeData enc data))).
    assert (Henc : e_dataBlocks enc = k).
    { unfold enc, NewErasure.
      destruct ((k <=? 0)%Z || (m <? 0)%Z); reflexivity. }
    assert (Htake : take (Z.to_nat k) shards = split_shards (Z.to_nat k) data).
    { unfold shards, EncodeData. cbn [fst]. rewrite Henc.
      rewrite take_take, Nat.min_l by exact Hn.
      rewrite take_app_length'; [reflexivity|].
      now rewrite split_shards_length. }
    assert (Hdec : DecodeDataBlocks enc shards = shards).
    { unfold DecodeDataBlocks. rewrite Henc, Htake.
      now rewrite split_shards_present. }
    assert (Hcat : concat shards
                   = zero_pad (Z.to_nat k) data ++ concat (drop (Z.to_nat k) shards)).
    { rewrite <- (take_drop (Z.to_nat k) shards) at 1.
      rewrite concat_app, Htake, concat_split_shards by exact Hkn. reflexivity. }
    rewrite Hdec, Hcat. split; [apply take_zero_pad|]. split.
    + rewrite length_app, zero_pad_length by exact Hkn.
      pose proof (shard_len_covers (Z.to_nat k) (length data) Hkn). lia.
    + intros _. split; [reflexivity|].
      rewrite Htake. now apply concat_split_shards.
Qed.

End RoundTrip.

(** C3. For every block [b], if [DagNode.Put] of [b] succeeded on a DagNode
    that has at least as many members as data blocks (a DagNode has
    [k + m] of them), then [DagNode.Get] of [b]'s CID returns a block with
    exactly [b]'s payload.  The size recorded by [Put] is the payload's
    length and is what [Get] trims to; encoding, decoding and joining give
    the payload followed by padding and parity, and for a payload that is
    not empty decoding changes nothing and the data shards joined are the
    zero-padded payload. *)
Theorem Put_then_Get `{RS : ReedSolomon} (d d' : DagNode) (block : Block) :
  Put d block = (d', None) ->
  Z.to_nat (dataBlocks d) <= length (nodes d) ->
  Get d' (Cid block) = (Some block, None)
  /\ db d' !! Cid block = Some (length (RawData block))
  /\ (let k := Z.to_nat (dataBlocks d) in
      let enc := fst (NewErasure (dataBlocks d) (parityBlocks d)
                        (length (RawData block))) in
      let shards := take (length (nodes d)) (fst (EncodeData enc (RawData block))) in
      take (length (RawData block)) (concat (DecodeDataBlocks enc shards))
      = RawData block
      /\ (RawData block <> [] ->
          DecodeDataBlocks enc shards = shards
          /\ concat (take k shards) = zero_pad k (RawData block))).
Proof.
  intros HPut Hn.
  destruct (Put_ok_inv d d' block HPut) as (Hk & Hm & id & Hid).
  rewrite (Put_eq d block id Hk Hm Hid) in HPut.
  injection HPut as Hd' Hok.
  destruct (put_loop_then_read id (sha256String (Cid block)) (shards_of d block)
              (nodes d) Hok) as (Hlen & Hread).
  destruct (encode_decode_trim (dataBlocks d) (parityBlocks d) (RawData block)
              (length (nodes d)) Hk Hn) as (Htrim & Hlong & Hid_dec).
  assert (Hdb : db d' !! Cid block = Some (length (RawData block))).
  { rewrite <- Hd'. cbn [with_nodes with_db db]. apply lookup_insert_eq. }
  split; [|split; [exact Hdb | split; [exact Htrim | exact Hid_dec]]].
  unfold Get. rewrite Hdb.
  assert (Hfid : fileID d' (sha256String (Cid block)) = Some id).
  { rewrite <- Hid. apply fileID_CaskNum. rewrite <- Hd'.
    cbn [with_nodes nodes]. apply put_loop_CaskNum. }
  rewrite Hfid.
  assert (Hnodes : nodes d' = fst (put_loop id (sha256String (Cid block))
                                     (shards_of d block) 0 (nodes d))).
  { rewrite <- Hd'. reflexivity. }
  rewrite Hnodes, Hread.
  assert (Hkm : dataBlocks d' = dataBlocks d /\ parityBlocks d' = parityBlocks d).
  { rewrite <- Hd'. split; reflexivity. }
  destruct Hkm as [-> ->].
  pose proof (NewErasure_ok (dataBlocks d) (parityBlocks d)
                (length (RawData block)) Hk Hm) as Hnil.
  unfold shards_of in *.
  destruct (NewErasure (dataBlocks d) (parityBlocks d) (length (RawData block)))
    as [enc err]. cbn [fst snd] in *. subst err.
  destruct (Nat.ltb_spec
              (length (concat (DecodeDataBlocks enc
                 (take (length (nodes d)) (fst (EncodeData enc (RawData block)))))))
              (length (RawData block))) as [Hlt|_]; [lia|].
  unfold NewBlockWithCid. rewrite Htrim. destruct block; reflexivity.
Qed.

Lemma Put_then_Get_witness :
  @Get xor_codec (fst (@Put xor_codec test_node test_block)) "QmTest"
  = (Some test_block, None).
Proof.
  refine (proj1 (@Put_then_Get xor_codec test_node
                   (fst (@Put xor_codec test_node test_block)) test_block _ _)).
  - vm_compute. reflexivity.
  - vm_compute. lia.
Defined.

(** ** Part X. [DagNode.GetSize] *)

Lemma size_loop_stored (id : Z) (key : string) (ns : list SliceNode)
    (vs : list shard) (count : Z) :
  Forall2 (fun n v => member_shard id key n = Some v) ns vs ->
  size_loop id key count ns = ((count + Z.of_nat (length (concat vs)))%Z, None).
Proof.
  intros H. revert count.
  induction H as [|n v ns vs Hn _ IH]; intros count.
  - simpl. f_equal. lia.
  - simpl. unfold member_shard in Hn.
    destruct (caskMap n !! id) as [c|]; [|discriminate].
    simpl in Hn. unfold cask_Size. rewrite Hn, IH, length_app. f_equal. lia.
Qed.

Lemma read_loop_members (id : Z) (key : string) (ns : list SliceNode)
    (vs : list shard) :
  read_loop id key ns = (vs, None) ->
  Forall2 (fun n v => member_shard id key n = Some v) ns vs.
Proof.
  revert vs. induction ns as [|n ns IH]; intros vs; simpl.
  - intros H. injection H as <-. constructor.
  - destruct (caskMap n !! id) as [c|] eqn:Hc; [|discriminate].
    unfold cask_Read. destruct (c !! key) as [v|] eqn:Hv; [|discriminate].
    destruct (read_loop id key ns) as [merged err]. intros H.
    injection H as <- ->. constructor; [|now apply IH].
    unfold member_shard. rewrite Hc. exact Hv.
Qed.

(** After a [Put] that succeeded, [GetSize] is the total length of the
    shards the members hold: data, padding and parity. *)
Lemma GetSize_after_Put `{RS : ReedSolomon} (d d' : DagNode) (block : Block) :
  Put d block = (d', None) ->
  GetSize d' (Cid block)
  = (Z.of_nat (length (concat (take (length (nodes d)) (shards_of d block)))), None).
Proof.
  intros HPut.
  destruct (Put_ok_inv d d' block HPut) as (Hk & Hm & id & Hid).
  rewrite (Put_eq d block id Hk Hm Hid) in HPut.
  injection HPut as Hd' Hok.
  destruct (put_loop_then_read id (sha256String (Cid block)) (shards_of d block)
              (nodes d) Hok) as (_ & Hread).
  unfold GetSize.
  assert (Hfid : fileID d' (sha256String (Cid block)) = Some id).
  { rewrite <- Hid. apply fileID_CaskNum. rewrite <- Hd'.
    cbn [with_nodes nodes]. apply put_loop_CaskNum. }
  rewrite Hfid, <- Hd'. cbn [with_nodes nodes].
  apply read_loop_members in Hread.
  now rewrite (size_loop_stored _ _ _ _ 0%Z Hread).
Qed.

Lemma GetSize_after_Put_witness :
  GetSize (fst (@Put xor_codec test_node test_block)) "QmTest"
  = (Z.of_nat (length (concat (take 3 (@shards_of xor_codec test_node test_block)))),
     None).
Proof.
  apply (@GetSize_after_Put xor_codec test_node
           (fst (@Put xor_codec test_node test_block)) test_block).
  vm_compute. reflexivity.
Defined.

(** C4 (the code on the input of [TestDagNode]).  With two data blocks, one
    parity block and three members, [Put] of the block "123456" succeeds
    and records the size 6, but [GetSize] then returns 9: the sizes of the
    three shards of 3 bytes added up, not the length of the payload. *)
Lemma GetSize_sums_shard_sizes :
  snd (@Put xor_codec test_node test_block) = None
  /\ GetSize (fst (@Put xor_codec test_node test_block)) "QmTest" = (9%Z, None)
  /\ length (RawData test_block) = 6
  /\ db (fst (@Put xor_codec test_node test_block)) !! "QmTest" = Some 6.
Proof. vm_compute. repeat split. Qed.

(** ** Part XI. The DagPool service *)

Section ServiceFacts.
Import poolservice.
Context {B : Type} `{BS : BlockService B}.

Lemma Has_refcount (d : dagPoolService B) (key : string) :
  Has d key = ((1 <=? refcount d key)%N || bool_decide (key ∈ cacheSet d), None).
Proof.
  unfold Has, refCounter_Has, cacheSet_Has.
  destruct (1 <=? refcount d key)%N; reflexivity.
Qed.

Lemma Has_false (d : dagPoolService B) (key : string) :
  refcount d key = 0%N -> key ∉ cacheSet d -> Has d key = (false, None).
Proof.
  intros Hr Hc. rewrite Has_refcount, Hr.
  rewrite bool_decide_eq_false_2 by exact Hc. reflexivity.
Qed.

End ServiceFacts.

(** C5. For every key, [dagPoolService.Has] returns true if and only if
    [RefCounter.Has] or [CacheSet.Has] does, that is, if and only if the
    reference counter holds the key with a count of at least 1 or the key
    is a member of the cache set; it returns no error. *)
Theorem Has_iff_pinned_or_cached {B : Type}
    (d : poolservice.dagPoolService B) (key : string) :
  snd (poolservice.Has d key) = None
  /\ (fst (poolservice.Has d key) = true <->
      fst (poolservice.refCounter_Has d key) = true
      \/ fst (poolservice.cacheSet_Has d key) = true)
  /\ (fst (poolservice.Has d key) = true <->
      (exists n, poolservice.refCounter d !! key = Some n /\ (1 <= n)%N)
      \/ key ∈ poolservice.cacheSet d).
Proof.
  rewrite Has_refcount. cbn [fst snd].
  unfold poolservice.refCounter_Has, poolservice.cacheSet_Has,
    poolservice.refcount. cbn [fst].
  rewrite orb_true_iff, bool_decide_eq_true, N.leb_le.
  split; [reflexivity|]. split; [reflexivity|].
  split; (intros [H|H]; [left | right; exact H]).
  - destruct (poolservice.refCounter d !! key) as [n|]; simpl in H; [|lia].
    exists n. split; [reflexivity | exact H].
  - destruct H as (n & -> & Hn). exact Hn.
Qed.

(** C6. For every [Get] and [GetSize] with valid read credentials, if the
    CID is neither pinned (count at least 1) nor in the cache set, the call
    returns NotFound and asks nothing of the block storage: the service,
    its record of backend calls included, is as before. *)
Theorem Get_unknown_cid_is_NotFound {B : Type} `{BS : poolservice.BlockService B}
    (d : poolservice.dagPoolService B) (c user password : string) :
  poolservice.CheckUserPolicy (poolservice.iam d) user password
    poolservice.ReadOnly = true ->
  poolservice.refcount d c = 0%N ->
  c ∉ poolservice.cacheSet d ->
  poolservice.Get d c user password = (d, None, Some (ErrNotFoundCid c))
  /\ poolservice.GetSize d c user password = (d, 0%Z, Some (ErrNotFoundCid c))
  /\ poolservice.calls (fst (fst (poolservice.Get d c user password)))
     = poolservice.calls d
  /\ poolservice.calls (fst (fst (poolservice.GetSize d c user password)))
     = poolservice.calls d.
Proof.
  intros Hpol Hr Hc.
  unfold poolservice.Get, poolservice.GetSize.
  rewrite Hpol, (Has_false d c Hr Hc). cbn.
  repeat split.
Qed.

Lemma Get_unknown_cid_is_NotFound_witness :
  @poolservice.Get DagNode test_backend test_pool "QmTest" "alice" "alicepw"
  = (test_pool, None, Some (ErrNotFoundCid "QmTest")).
Proof.
  refine (proj1 (@Get_unknown_cid_is_NotFound DagNode test_backend
                   test_pool "QmTest" "alice" "alicepw" _ _ _)).
  - vm_compute. reflexivity.
  - vm_compute. reflexivity.
  - apply (proj1 (bool_decide_eq_false _)). vm_compute. reflexivity.
Defined.

(** For contrast: when [Has] is true the read does reach the backend, and
    the record of calls shows it. *)
Lemma Get_known_cid_reads {B : Type} `{BS : poolservice.BlockService B}
    (d : poolservice.dagPoolService B) (c user password : string) :
  poolservice.CheckUserPolicy (poolservice.iam d) user password
    poolservice.ReadOnly = true ->
  fst (poolservice.Has d c) = true ->
  poolservice.calls (fst (fst (poolservice.Get d c user password)))
  = poolservice.calls d ++ [poolservice.CallGet c]
  /\ snd (fst (poolservice.Get d c user password))
     = fst (poolservice.bs_Get (poolservice.backend d) c).
Proof.
  intros Hpol Hhas. unfold poolservice.Get. rewrite Hpol.
  rewrite Has_refcount in *. cbn [fst] in Hhas. rewrite Hhas. cbn [negb].
  unfold poolservice.readBlock.
  destruct (poolservice.bs_Get (poolservice.backend d) c) as [blk err].
  split; reflexivity.
Qed.

(** C7. For each of [Add], [Get], [GetSize] and [Remove], if the check of
    the caller's credentials and policy fails (write policy for [Add] and
    [Remove], read policy for [Get] and [GetSize]), the operation returns
    AccessDenied and the service is exactly as before: reference counts,
    cache set, stored blocks, and no backend call made. *)
Theorem AccessDenied_changes_nothing {B : Type} `{BS : poolservice.BlockService B}
    (d : poolservice.dagPoolService B) (block : Block) (c user password : string)
    (flag : bool) :
  (poolservice.CheckUserPolicy (poolservice.iam d) user password
     poolservice.WriteOnly = false ->
   poolservice.Add d block user password flag = (d, Some AccessDenied)
   /\ poolservice.Remove d c user password flag = (d, Some AccessDenied))
  /\ (poolservice.CheckUserPolicy (poolservice.iam d) user password
        poolservice.ReadOnly = false ->
      poolservice.Get d c user password = (d, None, Some AccessDenied)
      /\ poolservice.GetSize d c user password = (d, 0%Z, Some AccessDenied)).
Proof.
  split; intros Hpol.
  - unfold poolservice.Add, poolservice.Remove. rewrite Hpol.
    split; reflexivity.
  - unfold poolservice.Get, poolservice.GetSize. rewrite Hpol.
    split; reflexivity.
Qed.

Lemma AccessDenied_changes_nothing_witness :
  @poolservice.Add DagNode test_backend test_pool test_block "alice" "alicepw" true
  = (test_pool, Some AccessDenied)
  /\ @poolservice.Get DagNode test_backend test_pool "QmTest" "alice" "wrong"
     = (test_pool, None, Some AccessDenied).
Proof.
  destruct (@AccessDenied_changes_nothing DagNode test_backend test_pool
              test_block "QmTest" "alice" "alicepw" true) as [Hw _].
  destruct (@AccessDenied_changes_nothing DagNode test_backend test_pool
              test_block "QmTest" "alice" "wrong" true) as [_ Hr].
  destruct Hw as [Hadd _]; [vm_compute; reflexivity|].
  destruct Hr as [Hget _]; [vm_compute; reflexivity|].
  split; [exact Hadd | exact Hget].
Defined.

(** C1. For every [Add] with valid write credentials.  With [pin]: the
    call signals [InterruptGC] and is [RefCounter.IncrOrCreate] on the
    block's CID with the callback that stores the block through the
    backend DagNode; so for a key not yet pinned the block is put, and on
    success the count becomes 1 and the key leaves the cache set, while
    for a pinned key the count goes up by one and nothing is put.
    Without [pin]: when [Has] is false the block is put and, if that
    succeeded, the CID is added to the cache set; when [Has] is true the
    call changes nothing and returns nil. *)
Theorem Add_pins_or_caches {B : Type} `{BS : poolservice.BlockService B}
    (d : poolservice.dagPoolService B) (block : Block) (user password : string) :
  poolservice.CheckUserPolicy (poolservice.iam d) user password
    poolservice.WriteOnly = true ->
  let key := Cid block in
  let pinned := poolservice.Add d block user password true in
  let cached := poolservice.Add d block user password false in
  let put := poolservice.bs_Put (poolservice.backend d) block in
  pinned = poolservice.refCounter_IncrOrCreate (poolservice.InterruptGC d) key
             (fun d0 => poolservice.putBlock d0 block)
  /\ poolservice.gcInterrupted (fst pinned) = true
  /\ (poolservice.refcount d key = 0%N ->
      poolservice.calls (fst pinned) = poolservice.calls d ++ [poolservice.CallPut key]
      /\ poolservice.backend (fst pinned) = fst put
      /\ snd pinned = snd put
      /\ (snd put = None ->
          poolservice.refcount (fst pinned) key = 1%N
          /\ key ∉ poolservice.cacheSet (fst pinned))
      /\ (snd put <> None ->
          poolservice.refcount (fst pinned) key = 0%N))
  /\ ((1 <= poolservice.refcount d key)%N ->
      snd pinned = None
      /\ poolservice.refcount (fst pinned) key = (poolservice.refcount d key + 1)%N
      /\ (key ∉ poolservice.cacheSet (fst pinned))
      /\ poolservice.calls (fst pinned) = poolservice.calls d
      /\ poolservice.backend (fst pinned) = poolservice.backend d)
  /\ (fst (poolservice.Has d key) = false ->
      poolservice.calls (fst cached) = poolservice.calls d ++ [poolservice.CallPut key]
      /\ poolservice.backend (fst cached) = fst put
      /\ snd cached = snd put
      /\ poolservice.refCounter (fst cached) = poolservice.refCounter d
      /\ poolservice.gcInterrupted (fst cached) = poolservice.gcInterrupted d
      /\ poolservice.cacheSet (fst cached)
         = (if is_nil (snd put) then poolservice.cacheSet d ∪ {[key]}
            else poolservice.cacheSet d))
  /\ (fst (poolservice.Has d key) = true -> cached = (d, None)).
Proof.
  intros Hpol key pinned cached put.
  subst pinned cached. unfold poolservice.Add. rewrite Hpol. cbn [negb].
  fold key. split; [reflexivity|].
  unfold poolservice.refCounter_IncrOrCreate, poolservice.putBlock.
  change (poolservice.refcount (poolservice.InterruptGC d) key)
    with (poolservice.refcount d key).
  change (poolservice.backend (poolservice.InterruptGC d))
    with (poolservice.backend d).
  fold put.
  split; [|split; [|split; [|split]]].
  - destruct (poolservice.refcount d key =? 0)%N; [|reflexivity].
    destruct put as [b [e|]]; reflexivity.
  - intros Hz. rewrite Hz. cbn [N.eqb].
    destruct put as [b [e|]]; cbn [fst snd].
    + split; [reflexivity|]. split; [reflexivity|]. split; [reflexivity|].
      split; [discriminate | intros _; exact Hz].
    + split; [reflexivity|]. split; [reflexivity|]. split; [reflexivity|].
      split; [intros _ | intros Hne; contradiction].
      split.
      * unfold poolservice.refcount. cbn. now rewrite lookup_insert_eq.
      * cbn. apply not_elem_of_difference. right. now apply elem_of_singleton.
  - intros Hpos.
    destruct (N.eqb_spec (poolservice.refcount d key) 0) as [Hz|_]; [lia|].
    cbn [fst snd]. split; [reflexivity|]. split; [|split; [|split; reflexivity]].
    + unfold poolservice.refcount at 1. cbn. now rewrite lookup_insert_eq.
    + cbn. apply not_elem_of_difference. right. now apply elem_of_singleton.
  - intros Hhas.
    destruct (poolservice.Has d key) as [has err]. cbn [fst] in Hhas. subst has.
    cbn [negb]. destruct put as [b [e|]]; cbn; repeat split.
  - intros Hhas.
    destruct (poolservice.Has d key) as [has err]. cbn [fst] in Hhas. subst has.
    reflexivity.
Qed.

Lemma Add_pins_or_caches_witness :
  poolservice.refcount
    (fst (@poolservice.Add DagNode test_backend test_pool test_block
            "bob" "bobpw" true)) "QmTest" = 1%N
  /\ poolservice.gcInterrupted
       (fst (@poolservice.Add DagNode test_backend test_pool test_block
               "bob" "bobpw" true)) = true.
Proof.
  destruct (@Add_pins_or_caches DagNode test_backend test_pool test_block
              "bob" "bobpw") as (_ & Hgc & Hnew & _).
  - vm_compute. reflexivity.
  - split; [|exact Hgc].
    destruct Hnew as (_ & _ & _ & Hok & _); [vm_compute; reflexivity|].
    apply Hok. vm_compute. reflexivity.
Defined.

(** ** Part XII. User administration *)

Section UserFacts.
Import poolservice.
Context {B : Type}.

Lemma IsAdmin_false (i : IdentityUserSys) (name : string) :
  IsAdmin i name = false -> name <> rootUser i.
Proof. unfold IsAdmin. apply bool_decide_eq_false_1. Qed.

Lemma IsAdmin_root (i : IdentityUserSys) : IsAdmin i (rootUser i) = true.
Proof. unfold IsAdmin. now apply bool_decide_eq_true_2. Qed.

Lemma iam_QueryUser_Some (i : IdentityUserSys) (name : string) (u : DagPoolUser) :
  fst (iam_QueryUser i name) = Some u <-> userStore i !! name = Some u.
Proof.
  unfold iam_QueryUser. destruct (userStore i !! name); simpl; split; congruence.
Qed.

(** What [UpdateUser] writes keeps the name of the record it read. *)
Lemma UpdateUser_cases (d : dagPoolService B) (uUser : DagPoolUser)
    (user password : string) :
  fst (UpdateUser d uUser user password) = d
  \/ exists u u', userStore (iam d) !! Username uUser = Some u
       /\ Username uUser <> rootUser (iam d)
       /\ Username u' = Username u
       /\ fst (UpdateUser d uUser user password)
          = with_iam d (with_userStore (iam d) (<[Username u' := u']> (userStore (iam d)))).
Proof.
  unfold UpdateUser.
  destruct (CheckAdmin (iam d) user password); [|now left]. cbn [negb].
  destruct (IsAdmin (iam d) (Username uUser)) eqn:Hadm; [now left|].
  apply IsAdmin_false in Hadm.
  unfold iam_QueryUser.
  destruct (userStore (iam d) !! Username uUser) as [u|] eqn:Hu; [|now left].
  right. exists u. eexists. split; [reflexivity|]. split; [exact Hadm|].
  split; [|reflexivity].
  destruct (bool_decide (Password uUser = ""%string)),
           (bool_decide (Policy uUser = ""%string)),
           (Capacity uUser =? 0)%Z; reflexivity.
Qed.

(** One request keeps the root account, and keeps the store well keyed and
    free of a record under the root name. *)
Lemma step_keeps_root (d : dagPoolService B) (op : UserOp) :
  rootUser (iam (step d op)) = rootUser (iam d)
  /\ rootPassword (iam (step d op)) = rootPassword (iam d)
  /\ (well_keyed (iam d) -> root_unshadowed (iam d) ->
      well_keyed (iam (step d op)) /\ root_unshadowed (iam (step d op))).
Proof.
  destruct op as [newUser user password | rmUser user password
                 | qUser user password | uUser user password]; cbn [step].
  - unfold AddUser.
    destruct (CheckAdmin (iam d) user password); [|now auto]. cbn [negb].
    destruct (IsAdmin (iam d) (Username newUser)) eqn:Hadm; [now auto|].
    destruct (is_nil (snd (iam_QueryUser (iam d) (Username newUser)))); [now auto|].
    apply IsAdmin_false in Hadm. cbn.
    split; [reflexivity|]. split; [reflexivity|]. intros Hwk Hroot. split.
    + intros k u. unfold well_keyed in Hwk. cbn.
      destruct (decide (Username newUser = k)) as [<-|Hne].
      * rewrite lookup_insert_eq. now intros [= <-].
      * rewrite lookup_insert_ne by exact Hne. apply Hwk.
    + unfold root_unshadowed in *. cbn. now rewrite lookup_insert_ne.
  - unfold RemoveUser.
    destruct (CheckAdmin (iam d) user password); [|now auto]. cbn [negb].
    destruct (IsAdmin (iam d) rmUser) eqn:Hadm; [now auto|].
    apply IsAdmin_false in Hadm. cbn.
    split; [reflexivity|]. split; [reflexivity|]. intros Hwk Hroot. split.
    + intros k u. unfold well_keyed in Hwk. cbn.
      destruct (decide (rmUser = k)) as [<-|Hne].
      * now rewrite lookup_delete_eq.
      * rewrite lookup_delete_ne by exact Hne. apply Hwk.
    + unfold root_unshadowed in *. cbn. now rewrite lookup_delete_ne.
  - now auto.
  - destruct (UpdateUser_cases d uUser user password)
      as [-> | (u & u' & Hu & Hne & Hname & ->)]; [now auto|].
    cbn. split; [reflexivity|]. split; [reflexivity|]. intros Hwk Hroot.
    pose proof (Hwk _ _ Hu) as Hkey. split.
    + intros k v. unfold well_keyed in Hwk. cbn.
      destruct (decide (Username u' = k)) as [<-|Hk].
      * rewrite lookup_insert_eq. now intros [= <-].
      * rewrite lookup_insert_ne by exact Hk. apply Hwk.
    + unfold root_unshadowed in *. cbn.
      rewrite lookup_insert_ne; [exact Hroot | congruence].
Qed.

Lemma run_keeps_root (ops : list UserOp) (d : dagPoolService B) :
  rootUser (iam (run d ops)) = rootUser (iam d)
  /\ rootPassword (iam (run d ops)) = rootPassword (iam d)
  /\ (well_keyed (iam d) -> root_unshadowed (iam d) ->
      well_keyed (iam (run d ops)) /\ root_unshadowed (iam (run d ops))).
Proof.
  revert d. induction ops as [|op ops IH]; intros d.
  - cbn. auto.
  - change (run d (op :: ops)) with (run (step d op) ops).
    destruct (IH (step d op)) as (Hu & Hp & Hinv).
    destruct (step_keeps_root d op) as (Hu1 & Hp1 & Hinv1).
    split; [congruence|]. split; [congruence|].
    intros Hwk Hroot. destruct (Hinv1 Hwk Hroot) as [Hwk1 Hroot1].
    now apply Hinv.
Qed.

End UserFacts.

(** C9. Through every sequence of user-administration requests the root
    user stays with unchanged credentials: its name and password are as
    at the start, so [CheckAdmin] answers every pair as before and accepts
    the root pair; and if the user store was keyed by user name and held no
    record under the root name, this is still so.  [AddUser] rejects a new
    user whose name is the root's or that of a stored user, [RemoveUser]
    refuses the root user, [UpdateUser] refuses the root user; each of the
    three leaves the service as it was. *)
Theorem root_user_is_kept {B : Type} (d : poolservice.dagPoolService B)
    (ops : list poolservice.UserOp) :
  let i := poolservice.iam d in
  let i' := poolservice.iam (poolservice.run d ops) in
  let refused (msg : string) (user password : string) :=
    Some (if poolservice.CheckAdmin i user password
          then ErrorNew msg else AccessDenied) in
  (poolservice.rootUser i' = poolservice.rootUser i
   /\ poolservice.rootPassword i' = poolservice.rootPassword i)
  /\ poolservice.CheckAdmin i' (poolservice.rootUser i) (poolservice.rootPassword i)
     = true
  /\ (forall user password,
        poolservice.CheckAdmin i' user password
        = poolservice.CheckAdmin i user password)
  /\ (well_keyed i -> root_unshadowed i -> well_keyed i' /\ root_unshadowed i')
  /\ (forall newUser user password,
        poolservice.Username newUser = poolservice.rootUser i
        \/ is_Some (poolservice.userStore i !! poolservice.Username newUser) ->
        poolservice.AddUser d newUser user password
        = (d, refused "the user already exists" user password))
  /\ (forall user password,
        poolservice.RemoveUser d (poolservice.rootUser i) user password
        = (d, refused "refuse to remove the admin user" user password))
  /\ (forall uUser user password,
        poolservice.Username uUser = poolservice.rootUser i ->
        poolservice.UpdateUser d uUser user password
        = (d, refused "refuse to update the admin user" user password)).
Proof.
  cbv zeta.
  destruct (run_keeps_root ops d) as (Hu & Hp & Hinv).
  split; [split; assumption|].
  assert (Hadm : forall user password,
            poolservice.CheckAdmin (poolservice.iam (poolservice.run d ops))
              user password
            = poolservice.CheckAdmin (poolservice.iam d) user password).
  { intros user password. unfold poolservice.CheckAdmin. now rewrite Hu, Hp. }
  split.
  { rewrite Hadm. unfold poolservice.CheckAdmin.
    now rewrite !bool_decide_eq_true_2. }
  split; [exact Hadm|]. split; [exact Hinv|]. split; [|split].
  - intros newUser user password Hname. unfold poolservice.AddUser.
    destruct (poolservice.CheckAdmin (poolservice.iam d) user password);
      [|reflexivity]. cbn [negb].
    destruct Hname as [Hroot | [u Hu']].
    + rewrite Hroot, IsAdmin_root. reflexivity.
    + destruct (poolservice.IsAdmin (poolservice.iam d)
                  (poolservice.Username newUser)); [reflexivity|].
      unfold poolservice.iam_QueryUser. rewrite Hu'. reflexivity.
  - intros user password. unfold poolservice.RemoveUser.
    destruct (poolservice.CheckAdmin (poolservice.iam d) user password);
      [|reflexivity]. cbn [negb]. now rewrite IsAdmin_root.
  - intros uUser user password Hroot. unfold poolservice.UpdateUser.
    destruct (poolservice.CheckAdmin (poolservice.iam d) user password);
      [|reflexivity]. cbn [negb]. now rewrite Hroot, IsAdmin_root.
Qed.

Lemma root_user_is_kept_witness :
  poolservice.RemoveUser test_pool "dagpool" "dagpool" "dagpool"
  = (test_pool, Some (ErrorNew "refuse to remove the admin user"))
  /\ poolservice.AddUser test_pool alice "dagpool" "dagpool"
     = (test_pool, Some (ErrorNew "the user already exists"))
  /\ root_unshadowed
       (poolservice.iam
          (poolservice.run test_pool
             [poolservice.OpRemoveUser "bob" "dagpool" "dagpool";
              poolservice.OpUpdateUser alice "dagpool" "dagpool"])).
Proof.
  destruct (root_user_is_kept test_pool
              [poolservice.OpRemoveUser "bob" "dagpool" "dagpool";
               poolservice.OpUpdateUser alice "dagpool" "dagpool"])
    as (_ & _ & _ & Hinv & Hadd & Hrm & _).
  split; [exact (Hrm "dagpool" "dagpool")|].
  split.
  - apply (Hadd alice "dagpool" "dagpool"). right. vm_compute. eauto.
  - apply Hinv.
    + intros k u. unfold test_pool, test_iam. cbn.
      rewrite lookup_insert. case_decide as Ha; [intros [= <-]; exact Ha|].
      rewrite lookup_insert. case_decide as Hb; [intros [= <-]; exact Hb|].
      rewrite lookup_empty. discriminate.
    + vm_compute. reflexivity.
Defined.

(** C10. For every authenticated caller [user]: one who is not the admin
    gets AccessDenied whenever the queried name differs from their own,
    and is handed a user record only for their own name, the record stored
    under it; the admin's query of any name is answered from the store, so
    the admin gets the record of every stored user. *)
Theorem QueryUser_self_or_admin {B : Type} (d : poolservice.dagPoolService B)
    (qUser user password : string) :
  poolservice.CheckUser (poolservice.iam d) user password = true ->
  (poolservice.IsAdmin (poolservice.iam d) user = false ->
   (qUser <> user ->
    poolservice.QueryUser d qUser user password = (None, Some AccessDenied))
   /\ (forall u, fst (poolservice.QueryUser d qUser user password) = Some u ->
         qUser = user
         /\ poolservice.userStore (poolservice.iam d) !! user = Some u))
  /\ (poolservice.IsAdmin (poolservice.iam d) user = true ->
      poolservice.QueryUser d qUser user password
      = poolservice.iam_QueryUser (poolservice.iam d) qUser
      /\ (forall u, poolservice.userStore (poolservice.iam d) !! qUser = Some u ->
            poolservice.QueryUser d qUser user password = (Some u, None))).
Proof.
  intros Hauth. unfold poolservice.QueryUser. rewrite Hauth. cbn [negb].
  split; intros Hadm; rewrite Hadm.
  - split.
    + intros Hne. now rewrite bool_decide_eq_false_2.
    + intros u. destruct (decide (qUser = user)) as [->|Hne].
      * rewrite bool_decide_eq_true_2 by reflexivity. cbn [negb].
        intros Hq. split; [reflexivity|]. now apply iam_QueryUser_Some.
      * rewrite bool_decide_eq_false_2 by exact Hne. discriminate.
  - split; [reflexivity|]. intros u Hu.
    unfold poolservice.iam_QueryUser. now rewrite Hu.
Qed.

Lemma QueryUser_self_or_admin_witness :
  poolservice.QueryUser test_pool "bob" "alice" "alicepw" = (None, Some AccessDenied)
  /\ poolservice.QueryUser test_pool "alice" "alice" "alicepw" = (Some alice, None)
  /\ poolservice.QueryUser test_pool "bob" "dagpool" "dagpool" = (Some bob, None).
Proof.
  destruct (QueryUser_self_or_admin test_pool "bob" "alice" "alicepw")
    as [Hother _]; [vm_compute; reflexivity|].
  destruct (QueryUser_self_or_admin test_pool "bob" "dagpool" "dagpool")
    as [_ Hroot]; [vm_compute; reflexivity|].
  split; [|split].
  - apply Hother; [vm_compute; reflexivity|].
    intros Heq. apply (proj1 (bool_decide_eq_true _)) in Heq || discriminate Heq.
  - vm_compute. reflexivity.
  - apply Hroot; vm_compute; reflexivity.
Defined.
